(** * ESP32 Pinhole Camera: a shallow embedding of [main.cpp]

    The firmware is two Arduino entry points, [setup()] and [loop()], and one
    helper, [flashBuiltinLed()].  Every call by which the firmware acts on a
    driver (LED pin, serial port, camera, SD card, EEPROM, shutter start,
    sleep) is recorded as an [event] in a chronological trace kept in the
    [world]; the three calls that only ask, [psramFound()], [millis()] and
    [shutter.clicked()], leave no event.  Every value a driver hands back
    (errors, frame buffers, clock readings, clicks) comes from an input
    record.  The parts of the drivers' state the firmware
    depends on (EEPROM contents, files on the card) live in the [world] too. *)

From Stdlib Require Import ZArith List String Ascii Bool Lia.
From Stdlib Require Import DecimalString DecimalZ DecimalPos.
From stdpp Require Import gmap strings list fin_maps.
Import ListNotations.
Open Scope Z_scope.

(** ** Fixed-width unsigned integers *)

Definition uint8 (z : Z) : Z := z mod 2 ^ 8.
Definition uint16 (z : Z) : Z := z mod 2 ^ 16.
Definition uint32 (z : Z) : Z := z mod 2 ^ 32.

Definition is_uint8 (z : Z) : Prop := 0 <= z < 2 ^ 8.
Definition is_uint16 (z : Z) : Prop := 0 <= z < 2 ^ 16.

(** ** Compile-time definitions *)

Definition BANNER : string :=
  String "010" "ESP32 CAM Pinhole camera v0.5.0" +:+ String "010" "".
Definition IC_ADDR : Z := 0.
Definition FLASH_MILLIS : Z := 200.
Definition FAIL_MILLIS : Z := 1000.
Definition WAVE_FLASH_COUNT : Z := 5.
Definition SNAP_FLASH_COUNT : Z := 1.
Definition CAMI_FLASH_COUNT : Z := 2.
Definition SDMI_FLASH_COUNT : Z := 3.
Definition SDCI_FLASH_COUNT : Z := 4.
Definition LED_BUILTIN : Z := 33.
Definition AWAKE_MILLIS : Z := 300000.

(** Values of the ESP-IDF and SD_MMC headers the firmware compares against. *)
Definition ESP_OK : Z := 0.
Definition CARD_NONE : Z := 0.

(** ** Driver calls *)

Inductive level := LOW | HIGH.

Inductive framesize := FRAMESIZE_SVGA | FRAMESIZE_UXGA.

(** The fields of [camera_config_t] that [setup()] picks at run time; the
    pin assignments and clock are compile-time constants. *)
Record camera_config := mkConfig {
  frame_size : framesize;
  jpeg_quality : Z;
  fb_count : Z
}.

(** A frame buffer as the firmware sees it: [buf] with [len] bytes. *)
Definition frame := list Z.

Inductive printf_arg := ArgInt (z : Z) | ArgStr (s : string).

Inductive event :=
| SerialBegin (baud : Z)
| SerialPrint (s : string)
| SerialPrintf (fmt : string) (args : list printf_arg)
| PinModeOutput (pin : Z)
| DigitalWrite (pin : Z) (l : level)
| Delay (ms : Z)
| CameraInit (cfg : camera_config)
| FbGet
| FbReturn (fb : frame)
| SdBegin (mountpoint : string) (mode1bit : bool)
| SdCardType
| SdOpenWrite (path : string)
| FileWrite (path : string) (buf : frame)
| FileClose (path : string)
| EepromBegin (size : Z)
| EepromReadUShort (addr : Z)
| EepromWriteUShort (addr : Z) (v : Z)
| EepromCommit
| EepromEnd
| ShutterBegin
| DeepSleepStart.

(** ** The world: firmware variables and the driver state they depend on *)

Record world := mkWorld {
  imageCtr : Z;                      (* uint16_t imageCtr *)
  clickedMillis : option Z;          (* static local of loop(); None until its first call *)
  eeprom_ram : Z;                    (* the ushort at IC_ADDR in the EEPROM library's buffer *)
  eeprom_flash : Z;                  (* the ushort at IC_ADDR as last committed *)
  sdcard : gmap string frame;        (* files on the card, by path *)
  trace : list event                 (* driver calls so far, oldest first *)
}.

Definition emit (es : list event) (w : world) : world :=
  mkWorld (imageCtr w) (clickedMillis w) (eeprom_ram w) (eeprom_flash w)
          (sdcard w) (trace w ++ es).

Definition set_imageCtr (v : Z) (w : world) : world :=
  mkWorld v (clickedMillis w) (eeprom_ram w) (eeprom_flash w) (sdcard w) (trace w).

Definition set_clickedMillis (v : Z) (w : world) : world :=
  mkWorld (imageCtr w) (Some v) (eeprom_ram w) (eeprom_flash w) (sdcard w) (trace w).

Definition set_eeprom_ram (v : Z) (w : world) : world :=
  mkWorld (imageCtr w) (clickedMillis w) v (eeprom_flash w) (sdcard w) (trace w).

Definition set_eeprom_flash (v : Z) (w : world) : world :=
  mkWorld (imageCtr w) (clickedMillis w) (eeprom_ram w) v (sdcard w) (trace w).

Definition set_sdcard (c : gmap string frame) (w : world) : world :=
  mkWorld (imageCtr w) (clickedMillis w) (eeprom_ram w) (eeprom_flash w) c (trace w).

(** How a piece of code ends.  [Spinning] is a loop that is still running
    when the fuel given to it is used up. *)
Inductive outcome :=
| Done (w : world)        (* control came back to the caller *)
| Asleep (w : world)      (* esp_deep_sleep_start() was called; it does not return *)
| Spinning (w : world).   (* still inside a loop *)

Definition bind (o : outcome) (k : world -> outcome) : outcome :=
  match o with
  | Done w => k w
  | Asleep w => Asleep w
  | Spinning w => Spinning w
  end.

Notation "'let*' w := a 'in' b" := (bind a (fun w => b))
  (at level 10, w name, a at level 100, b at level 200).

Definition world_of (o : outcome) : world :=
  match o with Done w | Asleep w | Spinning w => w end.

(** ** flashBuiltinLed *)

(** The body of the [for] loop for one value of [i]. *)
Definition flash_body (i flashCount flashLen : Z) : list event :=
  [DigitalWrite LED_BUILTIN LOW; Delay flashLen; DigitalWrite LED_BUILTIN HIGH]
  ++ (if i + 1 <? flashCount then [Delay flashLen] else []).

(** [for (uint8_t i = ..; i < flashCount; i++)]: one unit of fuel per test
    of the condition; [i++] wraps in 8 bits, [i + 1] is computed in [int]. *)
Fixpoint flash_loop (fuel : nat) (i flashCount flashLen : Z) (w : world) : outcome :=
  match fuel with
  | O => Spinning w
  | S fuel' =>
      if i <? flashCount
      then flash_loop fuel' (uint8 (i + 1)) flashCount flashLen
                      (emit (flash_body i flashCount flashLen) w)
      else Done w
  end.

(** Both parameters are [uint8_t]: whatever the caller passes is converted
    to 8 bits on the way in.  A [uint8_t] counter takes 256 values, so 256
    tests of the condition are all a terminating run can make. *)
Definition flashBuiltinLed (flashCount flashLen : Z) (w : world) : outcome :=
  flash_loop 256 0 (uint8 flashCount) (uint8 flashLen) w.

(** The declaration's default arguments: [flashBuiltinLed(uint8_t flashCount =
    WAVE_FLASH_COUNT, uint8_t flashLen = FLASH_MILLIS)]. *)
Definition flashBuiltinLed_args (flashCount flashLen : option Z) (w : world) : outcome :=
  flashBuiltinLed (default WAVE_FLASH_COUNT flashCount)
                  (default FLASH_MILLIS flashLen) w.

(** ** setup *)

Definition nl : string := String "010" "".

(** What the drivers answer during bring-up. *)
Record setup_input := mkSetupInput {
  psram_found : bool;        (* psramFound() *)
  camera_init_err : Z;       (* esp_camera_init(&config) *)
  sd_begin_ok : bool;        (* SD_MMC.begin("/sdcard", true) *)
  card_type : Z              (* SD_MMC.cardType() *)
}.

(** [while (true) { flashBuiltinLed(n); delay(FAIL_MILLIS); }], one unit of
    fuel per round.  The loop has no exit, so no amount of fuel yields
    [Done]. *)
Fixpoint fault_loop (fuel : nat) (n : Z) (w : world) : outcome :=
  match fuel with
  | O => Spinning w
  | S fuel' =>
      let* w1 := flashBuiltinLed_args (Some n) None w in
      fault_loop fuel' n (emit [Delay FAIL_MILLIS] w1)
  end.

Definition choose_config (psram : bool) : camera_config :=
  if psram then mkConfig FRAMESIZE_UXGA 10 2 else mkConfig FRAMESIZE_SVGA 12 1.

Definition setup (fuel : nat) (inp : setup_input) (w : world) : outcome :=
  let w := emit [SerialBegin 9600; SerialPrint BANNER] w in
  let w := emit [PinModeOutput LED_BUILTIN; DigitalWrite LED_BUILTIN HIGH] w in
  let config := choose_config (psram_found inp) in
  let w := emit [CameraInit config] w in
  if negb (camera_init_err inp =? ESP_OK) then
    let w := emit [SerialPrintf ("Camera init failed with error 0x%x." +:+ nl)
                                [ArgInt (camera_init_err inp)]] w in
    fault_loop fuel CAMI_FLASH_COUNT w
  else
  let w := emit [SdBegin "/sdcard" true] w in
  if negb (sd_begin_ok inp) then
    let w := emit [SerialPrint ("SD Card Mount failed." +:+ nl)] w in
    fault_loop fuel SDMI_FLASH_COUNT w
  else
  let w := emit [SdCardType] w in
  if card_type inp =? CARD_NONE then
    let w := emit [SerialPrint ("No SD Card inserted." +:+ nl)] w in
    fault_loop fuel SDCI_FLASH_COUNT w
  else
  (* EEPROM.begin loads the committed contents into the library's buffer *)
  let w := emit [EepromBegin 2] (set_eeprom_ram (eeprom_flash w) w) in
  let w := set_imageCtr (eeprom_ram w) (emit [EepromReadUShort IC_ADDR] w) in
  let w := emit [ShutterBegin] w in
  flashBuiltinLed_args None None w.

(** ** loop *)

(** What the drivers answer during one call of [loop()]; a field is only
    consulted if the call reaches the statement it belongs to. *)
Record loop_input := mkLoopInput {
  millis_first : Z;          (* millis() in the initialiser of the static local *)
  shutter_clicked : bool;    (* shutter.clicked() *)
  millis_clicked : Z;        (* millis() when the click is recorded *)
  fb_get : option frame;     (* esp_camera_fb_get(); None is the null pointer *)
  open_ok : bool;            (* whether SD_MMC.open(path, FILE_WRITE) yields a file *)
  write_sz : Z;              (* file.write(fb->buf, fb->len) *)
  millis_idle : Z            (* millis() in the idle test *)
}.

(** [String(n)] for an integer: decimal digits, no padding. *)
Definition decimal (z : Z) : string := NilZero.string_of_int (Z.to_int z).

Definition image_path (ctr : Z) : string := "/Image" +:+ decimal ctr +:+ ".jpg".

(** The second [if] of [loop()]; [clicked] is the current value of the
    static [clickedMillis], the subtraction is on [unsigned long]. *)
Definition idle_check (clicked : Z) (inp : loop_input) (w : world) : outcome :=
  if AWAKE_MILLIS <? uint32 (millis_idle inp - clicked) then
    let w := emit [EepromEnd] w in
    let w := emit [SerialPrint ("Going to sleep." +:+ nl)] w in
    let* w := flashBuiltinLed_args None None w in
    Asleep (emit [DeepSleepStart] w)
  else Done w.

Definition loop (inp : loop_input) (w : world) : outcome :=
  (* the static is initialised by the first call that reaches its declaration *)
  let clicked0 := default (millis_first inp) (clickedMillis w) in
  let w := set_clickedMillis clicked0 w in
  if shutter_clicked inp then
    let w := set_clickedMillis (millis_clicked inp) w in
    let w := emit [FbGet] w in
    match fb_get inp with
    | None => Done (emit [SerialPrint ("Camera capture failed." +:+ nl)] w)
    | Some fb =>
        let w := set_imageCtr (uint16 (imageCtr w + 1)) w in
        let path := image_path (imageCtr w) in
        let w := emit [SdOpenWrite path] w in
        if open_ok inp then
          (* FILE_WRITE creates the file, or empties the one already there *)
          let w := set_sdcard (<[path := []]> (sdcard w)) w in
          let w := set_sdcard (<[path := take (Z.to_nat (write_sz inp)) fb]> (sdcard w)) w in
          let w := emit [FileWrite path fb] w in
          let w := emit [SerialPrintf ("Saved image to: '%s' (%d bytes)" +:+ nl)
                                      [ArgStr path; ArgInt (Z.of_nat (length fb))]] w in
          let w := emit [EepromWriteUShort IC_ADDR (imageCtr w)]
                        (set_eeprom_ram (imageCtr w) w) in
          let w := emit [EepromCommit] (set_eeprom_flash (eeprom_ram w) w) in
          let* w := flashBuiltinLed_args (Some SNAP_FLASH_COUNT) None w in
          let w := emit [FileClose path; FbReturn fb] w in
          idle_check (millis_clicked inp) inp w
        else
          Done (emit [SerialPrint ("Unable to create the file for the image." +:+ nl)] w)
    end
  else idle_check clicked0 inp w.

(** The Arduino core calls [loop()] again each time it returns. *)
Fixpoint run (ins : list loop_input) (w : world) : outcome :=
  match ins with
  | [] => Done w
  | inp :: rest => let* w' := loop inp w in run rest w'
  end.

(** The world at power-on or reset: globals zeroed, nothing printed yet, the
    EEPROM and the card as they were left. *)
Definition power_on (stored : Z) (card : gmap string frame) : world :=
  mkWorld 0 None 0 stored card [].

Definition firmware (fuel : nat) (sinp : setup_input) (ins : list loop_input)
    (stored : Z) (card : gmap string frame) : outcome :=
  let* w := setup fuel sinp (power_on stored card) in run ins w.

(** * Vocabulary of the statements *)

(** ** Traces *)

(** The flash pattern in the words of the specification: [count] flashes,
    each "active for [d], then inactive", with a gap of [d] between
    consecutive flashes and none after the last. *)
Definition one_flash (d : Z) : list event :=
  [DigitalWrite LED_BUILTIN LOW; Delay d; DigitalWrite LED_BUILTIN HIGH].

Fixpoint flash_pattern (count : nat) (d : Z) : list event :=
  match count with
  | O => []
  | S O => one_flash d
  | S n => one_flash d ++ [Delay d] ++ flash_pattern n d
  end.

(** Number of times a trace switches the indicator on (it is active low). *)
Definition is_led_on (e : event) : bool :=
  match e with
  | DigitalWrite pin LOW => pin =? LED_BUILTIN
  | _ => false
  end.

Definition flashes (es : list event) : nat := length (List.filter is_led_on es).

(** What going to sleep adds to the trace. *)
Definition sleep_events : list event :=
  [EepromEnd; SerialPrint ("Going to sleep." +:+ nl)]
  ++ flash_pattern 5 FLASH_MILLIS ++ [DeepSleepStart].

(** The value of the static [clickedMillis] once its declaration is passed. *)
Definition idle_clock (inp : loop_input) (w : world) : Z :=
  default (millis_first inp) (clickedMillis w).

(** What a capture that gets its frame and its file adds to the trace. *)
Definition capture_events (ctr : Z) (fb : frame) : list event :=
  [FbGet; SdOpenWrite (image_path ctr); FileWrite (image_path ctr) fb;
   SerialPrintf ("Saved image to: '%s' (%d bytes)" +:+ nl)
                [ArgStr (image_path ctr); ArgInt (Z.of_nat (length fb))];
   EepromWriteUShort IC_ADDR ctr; EepromCommit]
  ++ one_flash FLASH_MILLIS
  ++ [FileClose (image_path ctr); FbReturn fb].

(** The world such a capture leaves when control reaches the idle test. *)
Definition captured (inp : loop_input) (fb : frame) (w : world) : world :=
  let ctr := uint16 (imageCtr w + 1) in
  mkWorld ctr (Some (millis_clicked inp)) ctr ctr
          (<[image_path ctr := take (Z.to_nat (write_sz inp)) fb]> (sdcard w))
          (trace w ++ capture_events ctr fb).

Definition open_failed_events (ctr : Z) : list event :=
  [FbGet; SdOpenWrite (image_path ctr);
   SerialPrint ("Unable to create the file for the image." +:+ nl)].

Definition fb_failed_events : list event :=
  [FbGet; SerialPrint ("Camera capture failed." +:+ nl)].

Definition returned_frames (es : list event) : nat :=
  length (List.filter (fun e => match e with FbReturn _ => true | _ => false end) es).

Definition is_eeprom_store (e : event) : bool :=
  match e with
  | EepromWriteUShort _ _ | EepromCommit => true
  | _ => false
  end.

Definition is_file_event (e : event) : bool :=
  match e with
  | SdOpenWrite _ | FileWrite _ _ | FileClose _ => true
  | _ => false
  end.

(** Whether a call of [loop()] gets as far as [++imageCtr]. *)
Definition acquired (inp : loop_input) : Z :=
  if shutter_clicked inp
  then match fb_get inp with Some _ => 1 | None => 0 end
  else 0.

Definition acquisitions (ins : list loop_input) : Z :=
  foldr (fun inp n => acquired inp + n) 0 ins.

(** The inputs that calls of [loop()] are actually made on: all of them up
    to and including the call that puts the device to sleep, if any. *)
Fixpoint calls_made (ins : list loop_input) (w : world) : list loop_input :=
  match ins with
  | [] => []
  | inp :: rest =>
      inp :: match loop inp w with
             | Done w' => calls_made rest w'
             | _ => []
             end
  end.

(** The files a trace opens for writing, in order. *)
Definition opened (es : list event) : list string :=
  omap (fun e => match e with SdOpenWrite p => Some p | _ => None end) es.

(** No capture attempted by this call of [loop()] is abandoned: if the
    shutter was clicked, the frame and the file are there. *)
Definition no_failed_capture (inp : loop_input) : Prop :=
  shutter_clicked inp = true -> is_Some (fb_get inp) /\ open_ok inp = true.

(** The calls of [loop()] that find the shutter clicked. *)
Definition captures (ins : list loop_input) : list loop_input :=
  List.filter shutter_clicked ins.

(** The names the specification gives to [n] captures after counter [c]. *)
Definition image_paths (c : Z) (n : nat) : list string :=
  image_path <$> seqZ (c + 1) (Z.of_nat n).

(** One round of a fault loop: a group of [n] flashes, then the pause. *)
Definition fault_round (n : Z) : list event :=
  flash_pattern (Z.to_nat n) FLASH_MILLIS ++ [Delay FAIL_MILLIS].

Definition fault_rounds (k : nat) (n : Z) : list event :=
  concat (replicate k (fault_round n)).

(** What each stage of [setup()] does before its test. *)
Definition camera_stage (inp : setup_input) : list event :=
  [SerialBegin 9600; SerialPrint BANNER;
   PinModeOutput LED_BUILTIN; DigitalWrite LED_BUILTIN HIGH;
   CameraInit (choose_config (psram_found inp))].

Definition mount_stage : list event := [SdBegin "/sdcard" true].

Definition card_stage : list event := [SdCardType].

Definition counter_stage : list event := [EepromBegin 2; EepromReadUShort IC_ADDR].

Definition trigger_stage : list event := [ShutterBegin].

Definition camera_report (inp : setup_input) : list event :=
  [SerialPrintf ("Camera init failed with error 0x%x." +:+ nl)
                [ArgInt (camera_init_err inp)]].

Definition mount_report : list event := [SerialPrint ("SD Card Mount failed." +:+ nl)].

Definition card_report : list event := [SerialPrint ("No SD Card inserted." +:+ nl)].

(** Calls that belong to the storage stages and to what follows them. *)
Definition is_storage_stage (e : event) : bool :=
  match e with
  | SdBegin _ _ | SdCardType => true
  | _ => false
  end.

Definition is_counter_or_trigger_stage (e : event) : bool :=
  match e with
  | EepromBegin _ | EepromReadUShort _ | EepromWriteUShort _ _ | EepromCommit
  | EepromEnd | ShutterBegin => true
  | _ => false
  end.

(** Whether a call of [loop()] gets as far as the idle test: it does unless
    a capture was attempted and abandoned. *)
Definition reaches_idle_test (inp : loop_input) : bool :=
  if shutter_clicked inp
  then match fb_get inp with Some _ => open_ok inp | None => false end
  else true.

Definition is_sleep_event (e : event) : bool :=
  match e with
  | EepromEnd | DeepSleepStart => true
  | _ => false
  end.

(** What a call of [loop()] adds to the trace ahead of the idle test. *)
Definition before_idle_test (inp : loop_input) (w : world) : list event :=
  if shutter_clicked inp then
    match fb_get inp with
    | Some fb =>
        if open_ok inp then capture_events (uint16 (imageCtr w + 1)) fb
        else open_failed_events (uint16 (imageCtr w + 1))
    | None => fb_failed_events
    end
  else [].

(** ** Measures on traces and on inputs *)

(** Time a trace spends in [delay()], in milliseconds. *)
Definition delay_total (es : list event) : Z :=
  foldr (fun e t => match e with Delay ms => ms + t | _ => t end) 0 es.

(** The level of the indicator pin after a trace, given its level before. *)
Definition led_step (l : level) (e : event) : level :=
  match e with
  | DigitalWrite pin l' => if pin =? LED_BUILTIN then l' else l
  | _ => l
  end.

Definition final_led (before : level) (es : list event) : level :=
  foldl led_step before es.

Definition count_events (p : event -> bool) (es : list event) : nat :=
  length (List.filter p es).

Definition is_fb_get (e : event) : bool :=
  match e with FbGet => true | _ => false end.
Definition is_fb_return (e : event) : bool :=
  match e with FbReturn _ => true | _ => false end.
Definition is_open (e : event) : bool :=
  match e with SdOpenWrite _ => true | _ => false end.
Definition is_file_write (e : event) : bool :=
  match e with FileWrite _ _ => true | _ => false end.
Definition is_file_close (e : event) : bool :=
  match e with FileClose _ => true | _ => false end.
Definition is_eeprom_write (e : event) : bool :=
  match e with EepromWriteUShort _ _ => true | _ => false end.
Definition is_eeprom_commit (e : event) : bool :=
  match e with EepromCommit => true | _ => false end.

(** The calls that make up a completed capture come in equal numbers, and
    there are no more of them than files opened, nor more files opened than
    frames asked for. *)
Definition paired (es : list event) : Prop :=
  let n := count_events is_eeprom_commit es in
  count_events is_file_write es = n /\
  count_events is_eeprom_write es = n /\
  count_events is_file_close es = n /\
  count_events is_fb_return es = n /\
  (n <= count_events is_open es)%nat /\
  (count_events is_open es <= count_events is_fb_get es)%nat.

(** Whether a call of [loop()] gets its frame and its file. *)
Definition completes_capture (inp : loop_input) : bool :=
  shutter_clicked inp &&
  match fb_get inp with Some _ => open_ok inp | None => false end.

(** The idle clock a call of [loop()] leaves behind. *)
Definition clock_after (inp : loop_input) (w : world) : Z :=
  if shutter_clicked inp then millis_clicked inp else idle_clock inp w.

(** Whether a call of [loop()] ends in deep sleep. *)
Definition falls_asleep (inp : loop_input) (w : world) : bool :=
  reaches_idle_test inp
  && (AWAKE_MILLIS <? uint32 (millis_idle inp - clock_after inp w)).

(** Everything a call of [loop()] adds to the trace. *)
Definition loop_events (inp : loop_input) (w : world) : list event :=
  before_idle_test inp w ++ (if falls_asleep inp w then sleep_events else []).

(** Reset or power cycle: only the EEPROM and the card survive. *)
Definition reset (w : world) : world := power_on (eeprom_flash w) (sdcard w).

(** The same answers from the drivers, but for what [file.write] returns. *)
Definition with_write_sz (sz : Z) (inp : loop_input) : loop_input :=
  mkLoopInput (millis_first inp) (shutter_clicked inp) (millis_clicked inp)
              (fb_get inp) (open_ok inp) sz (millis_idle inp).

(** Everything [setup()] has added to the trace when it has returned or, in
    a fault loop, gone [fuel] times round. *)
Definition setup_events (fuel : nat) (inp : setup_input) : list event :=
  camera_stage inp ++
  if negb (camera_init_err inp =? ESP_OK)
  then camera_report inp ++ fault_rounds fuel CAMI_FLASH_COUNT
  else mount_stage ++
       if negb (sd_begin_ok inp)
       then mount_report ++ fault_rounds fuel SDMI_FLASH_COUNT
       else card_stage ++
            if card_type inp =? CARD_NONE
            then card_report ++ fault_rounds fuel SDCI_FLASH_COUNT
            else counter_stage ++ trigger_stage ++ flash_pattern 5 FLASH_MILLIS.

(** ** Sample inputs *)

Definition bring_up_ok : setup_input := mkSetupInput true ESP_OK true 1.

Definition sample_frame : frame := [255; 216; 255; 217].

Definition click_ok : loop_input :=
  mkLoopInput 5000 true 6000 (Some sample_frame) true 4 6100.
Definition click_open_fails : loop_input :=
  mkLoopInput 5000 true 6000 (Some sample_frame) false 0 6100.
Definition click_fb_null : loop_input :=
  mkLoopInput 5000 true 6000 None false 0 6100.
Definition no_click (now : Z) : loop_input :=
  mkLoopInput 5000 false 0 None false 0 now.

Definition camera_fails : setup_input := mkSetupInput true 261 true 1.
Definition mount_fails : setup_input := mkSetupInput true ESP_OK false 1.
Definition card_missing : setup_input := mkSetupInput false ESP_OK true CARD_NONE.

(** * Properties *)

(** ** Bookkeeping for [emit] and [bind] *)

Lemma emit_nil (w : world) : emit [] w = w.
Proof. destruct w; unfold emit; simpl. by rewrite app_nil_r. Qed.

Lemma emit_emit (es1 es2 : list event) (w : world) :
  emit es2 (emit es1 w) = emit (es1 ++ es2) w.
Proof. unfold emit; simpl. by rewrite app_assoc. Qed.

Lemma uint8_small (z : Z) : is_uint8 z -> uint8 z = z.
Proof. unfold is_uint8, uint8. intros H. by apply Z.mod_small. Qed.

Lemma uint16_small (z : Z) : is_uint16 z -> uint16 z = z.
Proof. unfold is_uint16, uint16. intros H. by apply Z.mod_small. Qed.

(** Two worlds built by the setters agree once the setters are evaluated,
    innermost first, and the trace is re-associated. *)
Ltac world_fields :=
  cbv beta iota zeta delta
    [emit set_imageCtr set_clickedMillis set_eeprom_ram set_eeprom_flash
     set_sdcard imageCtr clickedMillis eeprom_ram eeprom_flash sdcard trace];
  rewrite <- ?app_assoc.

Ltac world_eq := world_fields; reflexivity.

(** ** The indicator *)

Lemma flash_body_pattern (i flashCount d : Z) (k : nat) :
  Z.to_nat (flashCount - i) = S k ->
  flash_body i flashCount d ++ flash_pattern k d = flash_pattern (S k) d.
Proof.
  intros Hk. unfold flash_body. fold (one_flash d).
  destruct k as [|k].
  - assert ((i + 1 <? flashCount) = false) as -> by (apply Z.ltb_ge; lia).
    reflexivity.
  - assert ((i + 1 <? flashCount) = true) as -> by (apply Z.ltb_lt; lia).
    by rewrite <- app_assoc.
Qed.

(** The loop started at [i] makes the remaining [flashCount - i] flashes and
    comes back, provided the fuel covers the tests it has left. *)
Lemma flash_loop_done (k : nat) :
  forall (fuel : nat) (i flashCount d : Z) (w : world),
    0 <= i -> flashCount < 2 ^ 8 ->
    Z.to_nat (flashCount - i) = k -> i <= flashCount -> (k < fuel)%nat ->
    flash_loop fuel i flashCount d w = Done (emit (flash_pattern k d) w).
Proof.
  induction k as [|k IH]; intros fuel i fc d w Hi Hfc Hk Hle Hfuel;
    destruct fuel as [|fuel]; try lia; simpl.
  - assert ((i <? fc) = false) as -> by (apply Z.ltb_ge; lia).
    by rewrite emit_nil.
  - assert ((i <? fc) = true) as -> by (apply Z.ltb_lt; lia).
    rewrite uint8_small by (unfold is_uint8; lia).
    rewrite (IH fuel (i + 1) fc d) by lia.
    by rewrite emit_emit, flash_body_pattern.
Qed.

Lemma uint8_range (z : Z) : is_uint8 (uint8 z).
Proof. unfold is_uint8, uint8. apply Z.mod_pos_bound. lia. Qed.

(** Whatever is passed, the call returns, having made the flashes of the
    8-bit values of its arguments. *)
Lemma flashBuiltinLed_returns (count d : Z) (w : world) :
  flashBuiltinLed count d w
  = Done (emit (flash_pattern (Z.to_nat (uint8 count)) (uint8 d)) w).
Proof.
  destruct (uint8_range count) as [H0 H1]. unfold flashBuiltinLed.
  apply flash_loop_done; lia.
Qed.

Lemma flashBuiltinLed_done (count d : Z) (w : world) :
  is_uint8 count -> is_uint8 d ->
  flashBuiltinLed count d w = Done (emit (flash_pattern (Z.to_nat count) d) w).
Proof.
  intros Hc Hd. rewrite flashBuiltinLed_returns.
  by rewrite !uint8_small by assumption.
Qed.

Lemma flashes_app (es1 es2 : list event) :
  flashes (es1 ++ es2) = (flashes es1 + flashes es2)%nat.
Proof. unfold flashes. by rewrite List.filter_app, length_app. Qed.

Lemma flashes_pattern (n : nat) (d : Z) : flashes (flash_pattern n d) = n.
Proof.
  induction n as [|[|n] IH]; try reflexivity.
  change (flash_pattern (S (S n)) d)
    with (one_flash d ++ [Delay d] ++ flash_pattern (S n) d).
  rewrite !flashes_app, IH. reflexivity.
Qed.

(** C9, as stated, fails outside the range of the parameters' type: asked
    for 256 flashes the operation makes none, and asked for flashes of
    1000 ms it makes them 232 ms long. *)
Lemma C9_counterexample :
  let w := power_on 0 ∅ in
  flashBuiltinLed 256 200 w = Done w /\
  flashes (trace (world_of (flashBuiltinLed 256 200 w))) <> 256%nat /\
  trace (world_of (flashBuiltinLed 1 1000 w))
  = [DigitalWrite LED_BUILTIN LOW; Delay 232; DigitalWrite LED_BUILTIN HIGH].
Proof. vm_compute. repeat split. discriminate. Qed.

(** C9, amended: for every count and every duration [d] in 0..255, the
    values of the [uint8_t] parameters, the flash operation returns after
    driving the indicator active for [d] ms and then inactive exactly
    [count] times, with a gap of [d] ms between consecutive flashes and none
    after the last; with the count left out it does so 5 times.  Arguments
    outside 0..255 act as their values modulo 256. *)
Theorem C9_flash_pattern (count d : Z) (w : world) :
  is_uint8 count -> is_uint8 d ->
  flashBuiltinLed count d w = Done (emit (flash_pattern (Z.to_nat count) d) w)
  /\ flashes (flash_pattern (Z.to_nat count) d) = Z.to_nat count
  /\ flashBuiltinLed_args None (Some d) w = flashBuiltinLed 5 d w
  /\ forall count' d' : Z,
       flashBuiltinLed count' d' w = flashBuiltinLed (uint8 count') (uint8 d') w.
Proof.
  intros Hc Hd. split; [by apply flashBuiltinLed_done|].
  split; [apply flashes_pattern|]. split; [reflexivity|].
  intros count' d'. rewrite flashBuiltinLed_returns.
  symmetry. apply flashBuiltinLed_done; apply uint8_range.
Qed.

Lemma C9_flash_pattern_witness :
  is_uint8 3 /\ is_uint8 200 /\
  flashBuiltinLed 3 200 (power_on 0 ∅) =
    Done (emit [DigitalWrite 33 LOW; Delay 200; DigitalWrite 33 HIGH; Delay 200;
                DigitalWrite 33 LOW; Delay 200; DigitalWrite 33 HIGH; Delay 200;
                DigitalWrite 33 LOW; Delay 200; DigitalWrite 33 HIGH]
               (power_on 0 ∅)).
Proof.
  assert (H3 : is_uint8 3) by (unfold is_uint8; lia).
  assert (H200 : is_uint8 200) by (unfold is_uint8; lia).
  split; [exact H3|]. split; [exact H200|].
  exact (proj1 (C9_flash_pattern 3 200 (power_on 0 ∅) H3 H200)).
Defined.

(** The three ways the firmware calls the flash operation. *)
Lemma flash_group (n : Z) (w : world) :
  is_uint8 n ->
  flashBuiltinLed_args (Some n) None w
  = Done (emit (flash_pattern (Z.to_nat n) FLASH_MILLIS) w).
Proof.
  intros Hn. unfold flashBuiltinLed_args; simpl.
  apply flashBuiltinLed_done; [assumption | unfold is_uint8, FLASH_MILLIS; lia].
Qed.

Lemma flash_snap (w : world) :
  flashBuiltinLed_args (Some SNAP_FLASH_COUNT) None w
  = Done (emit (one_flash FLASH_MILLIS) w).
Proof. rewrite flash_group; [reflexivity | unfold is_uint8, SNAP_FLASH_COUNT; lia]. Qed.

Lemma flash_wave (w : world) :
  flashBuiltinLed_args None None w = Done (emit (flash_pattern 5 FLASH_MILLIS) w).
Proof.
  unfold flashBuiltinLed_args; simpl.
  rewrite flashBuiltinLed_done;
    [reflexivity | unfold is_uint8, WAVE_FLASH_COUNT; lia
     | unfold is_uint8, FLASH_MILLIS; lia].
Qed.

(** ** One call of [loop()], case by case *)

Lemma idle_check_cases (clicked : Z) (inp : loop_input) (w : world) :
  idle_check clicked inp w
  = if AWAKE_MILLIS <? uint32 (millis_idle inp - clicked)
    then Asleep (emit sleep_events w) else Done w.
Proof.
  unfold idle_check. destruct (AWAKE_MILLIS <? _); [|reflexivity].
  rewrite flash_wave; simpl. by rewrite !emit_emit.
Qed.

Lemma loop_not_clicked (inp : loop_input) (w : world) :
  shutter_clicked inp = false ->
  loop inp w = idle_check (idle_clock inp w) inp
                 (set_clickedMillis (idle_clock inp w) w).
Proof. intros H. unfold loop. by rewrite H. Qed.

Lemma loop_fb_failed (inp : loop_input) (w : world) :
  shutter_clicked inp = true -> fb_get inp = None ->
  loop inp w = Done (emit fb_failed_events (set_clickedMillis (millis_clicked inp) w)).
Proof. intros Hc Hf. unfold loop. rewrite Hc, Hf. f_equal. world_eq. Qed.

Lemma loop_open_failed (inp : loop_input) (fb : frame) (w : world) :
  shutter_clicked inp = true -> fb_get inp = Some fb -> open_ok inp = false ->
  loop inp w
  = Done (emit (open_failed_events (uint16 (imageCtr w + 1)))
               (set_imageCtr (uint16 (imageCtr w + 1))
                             (set_clickedMillis (millis_clicked inp) w))).
Proof. intros Hc Hf Ho. unfold loop. rewrite Hc, Hf, Ho; simpl. f_equal. world_eq. Qed.

Lemma loop_captured (inp : loop_input) (fb : frame) (w : world) :
  shutter_clicked inp = true -> fb_get inp = Some fb -> open_ok inp = true ->
  loop inp w = idle_check (millis_clicked inp) inp (captured inp fb w).
Proof.
  intros Hc Hf Ho. unfold loop. rewrite Hc, Hf, Ho. cbv zeta.
  rewrite flash_snap. cbn [bind]. f_equal.
  unfold captured. world_fields. by rewrite insert_insert_eq.
Qed.

(** The idle test changes nothing but the trace. *)
Lemma idle_check_vars (clicked : Z) (inp : loop_input) (w : world) :
  let w' := world_of (idle_check clicked inp w) in
  imageCtr w' = imageCtr w /\ clickedMillis w' = clickedMillis w /\
  eeprom_ram w' = eeprom_ram w /\ eeprom_flash w' = eeprom_flash w /\
  sdcard w' = sdcard w.
Proof. rewrite idle_check_cases. by destruct (AWAKE_MILLIS <? _). Qed.

(** ** The capture transaction *)

(** C1, as stated, fails: after a capture whose file could not be created
    the next successful capture persists 2 where 0 was persisted. *)
Lemma C1_counterexample :
  let w1 := world_of (firmware 0 bring_up_ok [click_open_fails] 0 ∅) in
  let w2 := world_of (loop click_ok w1) in
  eeprom_flash w1 = 0 /\ eeprom_flash w2 = 2 /\
  eeprom_flash w2 <> eeprom_flash w1 + 1.
Proof. vm_compute. repeat split; discriminate. Qed.

(** C1, amended: a successful capture persists the in-memory counter it
    started with plus 1, modulo 2^16; that is the previously persisted value
    plus 1 whenever the two counters agreed at the start and were below
    65535. *)
Theorem C1_commit_follows_memory (inp : loop_input) (fb : frame) (w : world) :
  shutter_clicked inp = true -> fb_get inp = Some fb -> open_ok inp = true ->
  let w' := world_of (loop inp w) in
  eeprom_flash w' = uint16 (imageCtr w + 1) /\
  (imageCtr w = eeprom_flash w -> 0 <= eeprom_flash w < 65535 ->
   eeprom_flash w' = eeprom_flash w + 1).
Proof.
  intros Hc Hf Ho w'. subst w'. rewrite (loop_captured inp fb) by assumption.
  destruct (idle_check_vars (millis_clicked inp) inp (captured inp fb w))
    as (_ & _ & _ & -> & _).
  simpl. split; [reflexivity|].
  intros -> Hr. apply uint16_small. unfold is_uint16. lia.
Qed.

Lemma C1_commit_follows_memory_witness :
  let w := world_of (firmware 0 bring_up_ok [click_ok] 0 ∅) in
  eeprom_flash (world_of (loop click_ok w)) = uint16 (imageCtr w + 1).
Proof.
  exact (proj1 (C1_commit_follows_memory click_ok sample_frame
                  (world_of (firmware 0 bring_up_ok [click_ok] 0 ∅))
                  eq_refl eq_refl eq_refl)).
Defined.

(** C2 (the code departs from it): when the file cannot be created,
    [loop()] returns with the frame it got from the driver still held;
    nothing in what it did hands the frame back. *)
Theorem C2_open_failure_keeps_frame (inp : loop_input) (fb : frame) (w : world) :
  shutter_clicked inp = true -> fb_get inp = Some fb -> open_ok inp = false ->
  exists w', loop inp w = Done w' /\
    trace w' = trace w ++ open_failed_events (uint16 (imageCtr w + 1)) /\
    returned_frames (open_failed_events (uint16 (imageCtr w + 1))) = 0%nat.
Proof.
  intros Hc Hf Ho. eexists. split; [by apply (loop_open_failed inp fb)|].
  split; reflexivity.
Qed.

Lemma C2_open_failure_keeps_frame_witness :
  exists w', loop click_open_fails (power_on 0 ∅) = Done w' /\
    trace w' = trace (power_on 0 ∅) ++ open_failed_events (uint16 (imageCtr (power_on 0 ∅) + 1)) /\
    returned_frames (open_failed_events (uint16 (imageCtr (power_on 0 ∅) + 1))) = 0%nat.
Proof.
  exact (C2_open_failure_keeps_frame click_open_fails sample_frame (power_on 0 ∅)
           eq_refl eq_refl eq_refl).
Defined.

(** On the path where the file is created the frame is handed back once. *)
Lemma captured_returns_frame (inp : loop_input) (fb : frame) (w : world) :
  trace (captured inp fb w) = trace w ++ capture_events (uint16 (imageCtr w + 1)) fb /\
  returned_frames (capture_events (uint16 (imageCtr w + 1)) fb) = 1%nat.
Proof. split; reflexivity. Qed.

(** C5: when the driver has no frame, [loop()] returns having created no
    file, with the in-memory and the persisted counter as they were and the
    indicator untouched; the next call of [loop()] runs as usual. *)
Theorem C5_fb_failure_no_effect (inp : loop_input) (rest : list loop_input) (w : world) :
  shutter_clicked inp = true -> fb_get inp = None ->
  exists w', loop inp w = Done w' /\
    imageCtr w' = imageCtr w /\
    eeprom_ram w' = eeprom_ram w /\ eeprom_flash w' = eeprom_flash w /\
    sdcard w' = sdcard w /\
    trace w' = trace w ++ fb_failed_events /\
    Forall (fun e => is_file_event e = false) fb_failed_events /\
    flashes fb_failed_events = 0%nat /\
    run (inp :: rest) w = run rest w'.
Proof.
  intros Hc Hf. eexists. split; [by apply loop_fb_failed|].
  repeat split; try reflexivity.
  - repeat constructor.
  - simpl. by rewrite loop_fb_failed.
Qed.

Lemma C5_fb_failure_no_effect_witness :
  exists w', loop click_fb_null (power_on 7 ∅) = Done w' /\
    imageCtr w' = 0 /\ eeprom_flash w' = 7 /\ sdcard w' = ∅.
Proof.
  destruct (C5_fb_failure_no_effect click_fb_null [] (power_on 7 ∅) eq_refl eq_refl)
    as (w' & H1 & H2 & _ & H3 & H4 & _).
  exists w'. repeat split; assumption.
Defined.

(** C6: when the frame is there but the file cannot be created, [loop()]
    returns with the persisted counter as it was (no EEPROM write, no
    commit), the in-memory counter one step further and left there, and the
    indicator untouched. *)
Theorem C6_open_failure (inp : loop_input) (fb : frame) (w : world) :
  shutter_clicked inp = true -> fb_get inp = Some fb -> open_ok inp = false ->
  exists w', loop inp w = Done w' /\
    eeprom_ram w' = eeprom_ram w /\ eeprom_flash w' = eeprom_flash w /\
    imageCtr w' = uint16 (imageCtr w + 1) /\
    (0 <= imageCtr w < 65535 -> imageCtr w' = imageCtr w + 1) /\
    trace w' = trace w ++ open_failed_events (imageCtr w') /\
    Forall (fun e => is_eeprom_store e = false) (open_failed_events (imageCtr w')) /\
    flashes (open_failed_events (imageCtr w')) = 0%nat.
Proof.
  intros Hc Hf Ho. eexists. split; [by apply (loop_open_failed inp fb)|].
  repeat split; try reflexivity.
  - intros Hr. simpl. apply uint16_small. unfold is_uint16. lia.
  - repeat constructor.
Qed.

Lemma C6_open_failure_witness :
  exists w', loop click_open_fails (power_on 7 ∅) = Done w' /\
    eeprom_flash w' = 7 /\ imageCtr w' = 1.
Proof.
  destruct (C6_open_failure click_open_fails sample_frame (power_on 7 ∅)
              eq_refl eq_refl eq_refl) as (w' & H1 & _ & H2 & H3 & _).
  exists w'. repeat split; assumption.
Defined.

(** C10: the counter is 16 bits wide and its increment wraps: a capture
    that reaches the increment with 65535 in memory names its file
    Image0.jpg, and what it then persists is 0. *)
Theorem C10_counter_wraps (inp : loop_input) (fb : frame) (w : world) :
  shutter_clicked inp = true -> fb_get inp = Some fb -> imageCtr w = 65535 ->
  let w' := world_of (loop inp w) in
  imageCtr w' = 0 /\
  (exists tail, trace w' = trace w ++ FbGet :: SdOpenWrite "/Image0.jpg" :: tail) /\
  (open_ok inp = true ->
   eeprom_flash w' = 0 /\ In (EepromWriteUShort IC_ADDR 0) (trace w')).
Proof.
  intros Hc Hf Hctr w'. subst w'.
  destruct (open_ok inp) eqn:Ho.
  - rewrite (loop_captured inp fb) by assumption.
    destruct (idle_check_vars (millis_clicked inp) inp (captured inp fb w))
      as (-> & _ & _ & -> & _).
    rewrite idle_check_cases.
    assert (Hw : uint16 (imageCtr w + 1) = 0) by (by rewrite Hctr).
    split; [exact Hw|]. split; [|intros _; split; [exact Hw|]].
    + destruct (AWAKE_MILLIS <? _); simpl; rewrite Hw; eexists;
        rewrite <- ?app_assoc; reflexivity.
    + destruct (AWAKE_MILLIS <? _); simpl; rewrite Hw;
        rewrite ?in_app_iff; simpl; tauto.
  - rewrite (loop_open_failed inp fb) by assumption. simpl.
    rewrite Hctr. split; [reflexivity|]. split; [|discriminate].
    eexists. reflexivity.
Qed.

Lemma C10_counter_wraps_witness :
  let w := world_of (setup 0 bring_up_ok (power_on 65535 ∅)) in
  let w' := world_of (loop click_ok w) in
  imageCtr w = 65535 /\ imageCtr w' = 0 /\ eeprom_flash w' = 0.
Proof.
  intros w.
  destruct (C10_counter_wraps click_ok sample_frame w eq_refl eq_refl eq_refl)
    as (H1 & _ & H2).
  split; [reflexivity|]. split; [exact H1 | exact (proj1 (H2 eq_refl))].
Defined.

(** ** Runs of [loop()] and the two counters *)

Lemma run_app (ins1 ins2 : list loop_input) (w : world) :
  run (ins1 ++ ins2) w = bind (run ins1 w) (run ins2).
Proof.
  revert w. induction ins1 as [|inp ins1 IH]; intros w; simpl; [reflexivity|].
  destruct (loop inp w); simpl; auto.
Qed.

Lemma acquired_nonneg (inp : loop_input) : 0 <= acquired inp.
Proof. unfold acquired. destruct (shutter_clicked inp), (fb_get inp); lia. Qed.

Lemma acquisitions_nonneg (ins : list loop_input) : 0 <= acquisitions ins.
Proof.
  induction ins as [|inp ins IH]; simpl; [lia|].
  pose proof (acquired_nonneg inp). lia.
Qed.

Lemma acquisitions_app (ins1 ins2 : list loop_input) :
  acquisitions (ins1 ++ ins2) = acquisitions ins1 + acquisitions ins2.
Proof. induction ins1 as [|inp ins1 IH]; simpl; lia. Qed.

(** One call of [loop()] short of the wrap: the persisted counter does not
    go down and stays at or below the in-memory one. *)
Lemma loop_counters (inp : loop_input) (w : world) :
  0 <= eeprom_flash w <= imageCtr w -> imageCtr w + acquired inp <= 65535 ->
  let w' := world_of (loop inp w) in
  eeprom_flash w <= eeprom_flash w' <= imageCtr w' /\
  imageCtr w' = imageCtr w + acquired inp.
Proof.
  intros Hinv Hroom. unfold acquired in *.
  destruct (shutter_clicked inp) eqn:Hc.
  - destruct (fb_get inp) as [fb|] eqn:Hf.
    + assert (Hs : uint16 (imageCtr w + 1) = imageCtr w + 1)
        by (apply uint16_small; unfold is_uint16; lia).
      destruct (open_ok inp) eqn:Ho.
      * rewrite (loop_captured inp fb) by assumption. cbv zeta.
        destruct (idle_check_vars (millis_clicked inp) inp (captured inp fb w))
          as (-> & _ & _ & -> & _).
        simpl. rewrite Hs. lia.
      * rewrite (loop_open_failed inp fb) by assumption. simpl. rewrite Hs. lia.
    + rewrite loop_fb_failed by assumption. simpl. lia.
  - rewrite loop_not_clicked by assumption. cbv zeta.
    destruct (idle_check_vars (idle_clock inp w) inp
                (set_clickedMillis (idle_clock inp w) w)) as (-> & _ & _ & -> & _).
    simpl. lia.
Qed.

Lemma run_counters (ins : list loop_input) :
  forall w : world,
    0 <= eeprom_flash w <= imageCtr w -> imageCtr w + acquisitions ins <= 65535 ->
    let w' := world_of (run ins w) in
    eeprom_flash w <= eeprom_flash w' <= imageCtr w' /\
    imageCtr w' <= imageCtr w + acquisitions ins.
Proof.
  induction ins as [|inp ins IH]; intros w Hinv Hroom; simpl in *; [lia|].
  pose proof (acquisitions_nonneg ins) as Hn.
  pose proof (acquired_nonneg inp) as Ha.
  destruct (loop_counters inp w Hinv ltac:(lia)) as [H1 H2].
  destruct (loop inp w) as [w1|w1|w1]; simpl in *; try lia.
  destruct (IH w1 ltac:(lia) ltac:(lia)) as [H3 H4]. lia.
Qed.

(** [while (true)] has no way out. *)
Lemma fault_loop_not_done (fuel : nat) :
  forall (n : Z) (w w' : world), fault_loop fuel n w <> Done w'.
Proof.
  induction fuel as [|fuel IH]; intros n w w'; simpl; [discriminate|].
  destruct (flashBuiltinLed_args (Some n) None w); simpl; try discriminate.
  apply IH.
Qed.

(** When [setup()] returns, the in-memory counter is the persisted one. *)
Lemma setup_done (fuel : nat) (inp : setup_input) (w w' : world) :
  setup fuel inp w = Done w' ->
  imageCtr w' = eeprom_flash w /\ eeprom_flash w' = eeprom_flash w /\
  sdcard w' = sdcard w /\ clickedMillis w' = clickedMillis w.
Proof.
  unfold setup.
  destruct (negb (camera_init_err inp =? ESP_OK));
    [intros H; by apply fault_loop_not_done in H|].
  destruct (negb (sd_begin_ok inp));
    [intros H; by apply fault_loop_not_done in H|].
  destruct (card_type inp =? CARD_NONE);
    [intros H; by apply fault_loop_not_done in H|].
  rewrite flash_wave. intros [= <-]. simpl. auto.
Qed.

(** C3, as stated, fails at the 16-bit wrap: booted with 65535 persisted, a
    capture whose file cannot be created leaves 0 in memory against 65535
    persisted, and a successful capture takes the persisted value from 65535
    down to 0. *)
Lemma C3_counterexample :
  let w0 := world_of (setup 0 bring_up_ok (power_on 65535 ∅)) in
  let w1 := world_of (run [click_open_fails] w0) in
  let w2 := world_of (run [click_ok] w0) in
  eeprom_flash w0 = 65535 /\
  (imageCtr w1 = 0 /\ eeprom_flash w1 = 65535 /\ ~ eeprom_flash w1 <= imageCtr w1) /\
  (eeprom_flash w2 = 0 /\ ~ eeprom_flash w0 <= eeprom_flash w2).
Proof. vm_compute. repeat split; intros H; by apply H. Qed.

(** C3, amended: in every state reached from bring-up before the in-memory
    counter has been incremented past 65535, the in-memory counter is at
    least the persisted one, and the persisted counter in any later such
    state is at least what it is now. *)
Theorem C3_counters_ordered (fuel : nat) (sinp : setup_input) (stored : Z)
    (card : gmap string frame) (w0 : world) (ins1 ins2 : list loop_input) :
  is_uint16 stored ->
  setup fuel sinp (power_on stored card) = Done w0 ->
  stored + acquisitions (ins1 ++ ins2) <= 65535 ->
  let w1 := world_of (run ins1 w0) in
  let w2 := world_of (run (ins1 ++ ins2) w0) in
  eeprom_flash w1 <= imageCtr w1 /\ eeprom_flash w1 <= eeprom_flash w2.
Proof.
  intros [Hs0 _] Hsetup Hroom w1 w2. subst w1 w2.
  apply setup_done in Hsetup as (Hctr & Hflash & _). simpl in Hctr, Hflash.
  rewrite acquisitions_app in Hroom.
  pose proof (acquisitions_nonneg ins1) as Hn1.
  pose proof (acquisitions_nonneg ins2) as Hn2.
  destruct (run_counters ins1 w0 ltac:(lia) ltac:(lia)) as [H1 H2].
  split; [lia|].
  rewrite run_app.
  destruct (run ins1 w0) as [w1|w1|w1]; simpl in *; try lia.
  destruct (run_counters ins2 w1 ltac:(lia) ltac:(lia)) as [H3 H4]. lia.
Qed.

Lemma C3_counters_ordered_witness :
  let w0 := world_of (setup 0 bring_up_ok (power_on 7 ∅)) in
  let w1 := world_of (run [click_open_fails] w0) in
  let w2 := world_of (run ([click_open_fails] ++ [click_ok]) w0) in
  eeprom_flash w1 <= imageCtr w1 /\ eeprom_flash w1 <= eeprom_flash w2.
Proof.
  apply (C3_counters_ordered 0 bring_up_ok 7 ∅ _ [click_open_fails] [click_ok]).
  - unfold is_uint16. lia.
  - reflexivity.
  - vm_compute. discriminate.
Defined.

(** ** File names *)

Lemma to_int_normal (z : Z) :
  Z.to_int z <> Decimal.Pos Decimal.Nil /\ Z.to_int z <> Decimal.Neg Decimal.Nil.
Proof.
  destruct z as [|p|p]; simpl; split; try discriminate;
    intros [= H]; by apply Unsigned.to_uint_nonnil in H.
Qed.

Lemma decimal_inj (z1 z2 : Z) : decimal z1 = decimal z2 -> z1 = z2.
Proof.
  unfold decimal. intros H. apply DecimalZ.to_int_inj.
  destruct (to_int_normal z1) as [Ha Hb], (to_int_normal z2) as [Hc Hd].
  apply (f_equal NilZero.int_of_string) in H.
  rewrite !NilZero.isi in H by assumption. congruence.
Qed.

Lemma list_ascii_of_append (s1 s2 : string) :
  list_ascii_of_string (s1 +:+ s2)
  = list_ascii_of_string s1 ++ list_ascii_of_string s2.
Proof. induction s1 as [|c s1 IH]; simpl; [reflexivity|]. by rewrite IH. Qed.

Lemma append_inv_tail (s1 s2 t : string) : s1 +:+ t = s2 +:+ t -> s1 = s2.
Proof.
  intros H. apply (f_equal list_ascii_of_string) in H.
  rewrite !list_ascii_of_append in H. apply app_inv_tail in H.
  apply (f_equal string_of_list_ascii) in H.
  by rewrite !string_of_list_ascii_of_string in H.
Qed.

Lemma image_path_inj (c1 c2 : Z) : image_path c1 = image_path c2 -> c1 = c2.
Proof.
  unfold image_path. intros H. apply String.app_inj in H.
  apply append_inv_tail in H. by apply decimal_inj.
Qed.

Example image_path_7 : image_path 7 = "/Image7.jpg".
Proof. reflexivity. Qed.

Lemma opened_app (es1 es2 : list event) : opened (es1 ++ es2) = opened es1 ++ opened es2.
Proof. apply omap_app. Qed.

Lemma opened_capture_events (ctr : Z) (fb : frame) :
  opened (capture_events ctr fb) = [image_path ctr].
Proof. reflexivity. Qed.

Lemma image_paths_cons (c : Z) (n : nat) :
  image_paths c (S n) = image_path (c + 1) :: image_paths (c + 1) n.
Proof.
  unfold image_paths. rewrite seqZ_cons by lia. cbn [fmap list_fmap].
  do 3 f_equal; lia.
Qed.

Lemma elem_of_image_paths (c : Z) (n : nat) (p : string) :
  p ∈ image_paths c n <-> exists k, p = image_path k /\ c < k <= c + Z.of_nat n.
Proof.
  unfold image_paths. rewrite list_elem_of_fmap. split.
  - intros (k & -> & Hk). apply elem_of_seqZ in Hk. exists k. split; [done|lia].
  - intros (k & -> & Hk). exists k. split; [done|]. apply elem_of_seqZ. lia.
Qed.

Lemma image_paths_NoDup (c : Z) (n : nat) : NoDup (image_paths c n).
Proof.
  unfold image_paths. apply NoDup_fmap_2; [|apply NoDup_seqZ].
  intros x y. apply image_path_inj.
Qed.

(** A call of [loop()] that returns without having abandoned a capture
    either found the shutter at rest and changed nothing but the idle clock,
    or made a capture. *)
Lemma loop_done_cases (inp : loop_input) (w w1 : world) :
  no_failed_capture inp -> loop inp w = Done w1 ->
  (shutter_clicked inp = false /\ w1 = set_clickedMillis (idle_clock inp w) w) \/
  (shutter_clicked inp = true /\
   exists fb, fb_get inp = Some fb /\ w1 = captured inp fb w).
Proof.
  intros Hok Hloop. destruct (shutter_clicked inp) eqn:Hc.
  - right. split; [done|]. destruct (Hok Hc) as [[fb Hf] Ho].
    exists fb. split; [done|].
    rewrite (loop_captured inp fb) in Hloop by assumption.
    rewrite idle_check_cases in Hloop.
    destruct (AWAKE_MILLIS <? _); congruence.
  - left. split; [done|].
    rewrite loop_not_clicked in Hloop by assumption.
    rewrite idle_check_cases in Hloop.
    destruct (AWAKE_MILLIS <? _); congruence.
Qed.

(** A run of [loop()] calls in which no capture is abandoned and the device
    stays awake, short of the wrap. *)
Lemma run_captures (ins : list loop_input) :
  forall (w w' : world) (c : Z),
    Forall no_failed_capture ins -> run ins w = Done w' -> imageCtr w = c ->
    0 <= c -> c + Z.of_nat (length (captures ins)) <= 65535 ->
    let n := length (captures ins) in
    opened (trace w') = opened (trace w) ++ image_paths c n /\
    imageCtr w' = c + Z.of_nat n /\
    (captures ins <> [] -> eeprom_flash w' = c + Z.of_nat n) /\
    (captures ins = [] -> eeprom_flash w' = eeprom_flash w) /\
    dom (sdcard w') = dom (sdcard w) ∪ list_to_set (image_paths c n) /\
    (forall p, p ∉ image_paths c n -> sdcard w' !! p = sdcard w !! p) /\
    (forall (i : nat) inp fb,
        captures ins !! i = Some inp -> fb_get inp = Some fb ->
        sdcard w' !! image_path (c + 1 + Z.of_nat i)
        = Some (take (Z.to_nat (write_sz inp)) fb)).
Proof.
  induction ins as [|inp rest IH]; intros w w' c Hall Hrun Hctr Hc Hroom.
  - cbn [run] in Hrun. injection Hrun as <-. cbn.
    repeat split; try done.
    + by rewrite app_nil_r.
    + lia.
    + set_solver.
  - apply Forall_cons in Hall as [Hinp Hrest]. cbn [run] in Hrun.
    destruct (loop inp w) as [w1|w1|w1] eqn:Hloop; cbn [bind] in Hrun; try done.
    destruct (loop_done_cases inp w w1 Hinp Hloop)
      as [[Hc0 ->]|(Hc1 & fb & Hfb & ->)].
    + (* the shutter was at rest *)
      unfold captures in *. cbn [List.filter] in *. rewrite Hc0 in *.
      exact (IH _ w' c Hrest Hrun Hctr Hc Hroom).
    + (* a capture *)
      unfold captures in *. cbn [List.filter] in *. rewrite Hc1 in *.
      fold (captures rest) in *. cbn [length] in *.
      assert (Hs : uint16 (c + 1) = c + 1)
        by (apply uint16_small; unfold is_uint16; lia).
      set (w1 := captured inp fb w) in *.
      assert (Hctr1 : imageCtr w1 = c + 1)
        by (subst w1; cbn [captured imageCtr]; by rewrite Hctr).
      assert (Hflash1 : eeprom_flash w1 = c + 1)
        by (subst w1; cbn [captured eeprom_flash]; by rewrite Hctr).
      assert (Htrace1 : trace w1 = trace w ++ capture_events (c + 1) fb)
        by (subst w1; cbn [captured trace]; by rewrite Hctr, Hs).
      assert (Hcard : sdcard w1
                = <[image_path (c + 1) := take (Z.to_nat (write_sz inp)) fb]> (sdcard w))
        by (subst w1; cbn [captured sdcard]; by rewrite Hctr, Hs).
      clearbody w1.
      destruct (IH w1 w' (c + 1) Hrest Hrun Hctr1 ltac:(lia) ltac:(lia))
        as (Hopen & Hmem & Hflash & Hflash' & Hdom & Hkeep & Hfile).
      assert (Hnew : image_path (c + 1) ∉ image_paths (c + 1) (length (captures rest))).
      { rewrite elem_of_image_paths. intros (k & Hk & Hrange).
        apply image_path_inj in Hk. lia. }
      cbv zeta. rewrite image_paths_cons.
      split.
      { rewrite Hopen, Htrace1, opened_app, opened_capture_events.
        by rewrite <- app_assoc. }
      split; [lia|].
      split.
      { intros _. destruct (captures rest) as [|inp' rest'] eqn:Hrest'.
        - rewrite Hflash' by done. cbn [length]. lia.
        - rewrite Hflash by done. cbn [length]. lia. }
      split; [done|].
      split.
      { rewrite Hdom, Hcard, dom_insert_L. set_solver. }
      split.
      { intros p Hp. apply not_elem_of_cons in Hp as [Hne Hp].
        rewrite Hkeep by done. rewrite Hcard. by rewrite lookup_insert_ne. }
      intros [|i] inp' fb' Hlook Hfb'; cbn in Hlook.
      * injection Hlook as <-. rewrite Hfb in Hfb'. injection Hfb' as <-.
        replace (c + 1 + Z.of_nat 0) with (c + 1) by lia.
        rewrite Hkeep by done. rewrite Hcard. by rewrite lookup_insert_eq.
      * replace (c + 1 + Z.of_nat (S i)) with (c + 1 + 1 + Z.of_nat i) by lia.
        by apply Hfile.
Qed.

(** C4, as stated, fails twice over.  With 65535 persisted the next file is
    Image0.jpg, not Image65536.jpg, and an Image0.jpg already on the card is
    replaced; and short of the wrap, with 0 persisted, an Image1.jpg already
    on the card is replaced by the first capture. *)
Lemma C4_counterexample :
  let old := [1; 2; 3] in
  let w := world_of (setup 0 bring_up_ok (power_on 65535 {["/Image0.jpg" := old]})) in
  let w' := world_of (run [click_ok] w) in
  let v := world_of (setup 0 bring_up_ok (power_on 0 {["/Image1.jpg" := old]})) in
  let v' := world_of (run [click_ok] v) in
  (imageCtr w = 65535 /\ eeprom_flash w = 65535 /\
   opened (trace w') = opened (trace w) ++ ["/Image0.jpg"] /\
   image_path (65535 + 1) = "/Image65536.jpg" /\
   sdcard w !! "/Image0.jpg" = Some old /\
   sdcard w' !! "/Image0.jpg" = Some sample_frame) /\
  (imageCtr v = 0 /\ eeprom_flash v = 0 /\
   sdcard v !! "/Image1.jpg" = Some old /\
   sdcard v' !! "/Image1.jpg" = Some sample_frame).
Proof. vm_compute. repeat split. Qed.

(** C4, amended: take any run of [loop()] calls, from in-memory and
    persisted counter C, in which no capture is abandoned and the device
    stays awake, and let N be the number of captures in it, with
    C + N <= 65535.  The files opened are exactly /Image(C+1).jpg ..
    /Image(C+N).jpg, in that order and without duplicates; afterwards each
    of them holds what its own capture wrote, the card has these names
    besides the ones it had, every file of another name is as it was, and
    both counters are C + N. *)
Theorem C4_files_in_sequence (ins : list loop_input) (w w' : world) (c : Z) :
  Forall no_failed_capture ins -> run ins w = Done w' ->
  imageCtr w = c -> eeprom_flash w = c ->
  0 <= c -> c + Z.of_nat (length (captures ins)) <= 65535 ->
  let n := length (captures ins) in
  opened (trace w') = opened (trace w) ++ image_paths c n /\
  NoDup (image_paths c n) /\
  imageCtr w' = c + Z.of_nat n /\
  eeprom_flash w' = c + Z.of_nat n /\
  dom (sdcard w') = dom (sdcard w) ∪ list_to_set (image_paths c n) /\
  (forall p, p ∉ image_paths c n -> sdcard w' !! p = sdcard w !! p) /\
  (forall (i : nat) inp fb,
      captures ins !! i = Some inp -> fb_get inp = Some fb ->
      sdcard w' !! image_path (c + 1 + Z.of_nat i)
      = Some (take (Z.to_nat (write_sz inp)) fb)).
Proof.
  intros Hall Hrun Hctr Hflash0 Hc Hroom.
  destruct (run_captures ins w w' c Hall Hrun Hctr Hc Hroom)
    as (Hopen & Hmem & Hflash & Hflash' & Hdom & Hkeep & Hfile).
  cbv zeta. repeat split; try assumption.
  - apply image_paths_NoDup.
  - destruct (captures ins) as [|inp rest] eqn:Hcap.
    + rewrite Hflash' by done. cbn [length]. lia.
    + by apply Hflash.
Qed.

Lemma no_failed_capture_samples :
  Forall no_failed_capture [click_ok; no_click 7000; click_ok].
Proof.
  repeat (apply List.Forall_cons); try apply List.Forall_nil;
    intros H; try discriminate H; (split; [by eexists | reflexivity]).
Defined.

Lemma C4_files_in_sequence_witness :
  let ins := [click_ok; no_click 7000; click_ok] in
  let w := world_of (setup 0 bring_up_ok (power_on 0 ∅)) in
  let w' := world_of (run ins w) in
  run ins w = Done w' /\
  opened (trace w') = opened (trace w) ++ ["/Image1.jpg"; "/Image2.jpg"] /\
  eeprom_flash w' = 2.
Proof.
  intros ins w w'.
  assert (Hrun : run ins w = Done w') by (vm_compute; reflexivity).
  destruct (C4_files_in_sequence ins w w' 0 no_failed_capture_samples Hrun
              eq_refl eq_refl) as (H2 & _ & _ & H3 & _).
  - lia.
  - vm_compute. discriminate.
  - split; [exact Hrun|]. split; [exact H2 | exact H3].
Defined.

(** ** Bring-up *)

Lemma fault_loop_spins (fuel : nat) :
  forall (n : Z) (w : world),
    is_uint8 n -> fault_loop fuel n w = Spinning (emit (fault_rounds fuel n) w).
Proof.
  induction fuel as [|fuel IH]; intros n w Hn; simpl.
  - by rewrite emit_nil.
  - rewrite flash_group by assumption. simpl. rewrite IH by assumption.
    f_equal. unfold fault_rounds, fault_round. simpl.
    rewrite !emit_emit. by rewrite <- !app_assoc.
Qed.

Lemma flash_pattern_Forall (P : event -> Prop) (n : nat) (d : Z) :
  P (DigitalWrite LED_BUILTIN LOW) -> P (DigitalWrite LED_BUILTIN HIGH) ->
  P (Delay d) -> Forall P (flash_pattern n d).
Proof.
  intros Hlow Hhigh Hdelay.
  assert (H1 : Forall P (one_flash d)) by (repeat constructor; assumption).
  induction n as [|[|n] IH]; [constructor | exact H1 |].
  change (flash_pattern (S (S n)) d)
    with (one_flash d ++ [Delay d] ++ flash_pattern (S n) d).
  rewrite !Forall_app. repeat split; try assumption. by repeat constructor.
Qed.

Lemma fault_rounds_Forall (P : event -> Prop) (k : nat) (n : Z) :
  P (DigitalWrite LED_BUILTIN LOW) -> P (DigitalWrite LED_BUILTIN HIGH) ->
  (forall d, P (Delay d)) -> Forall P (fault_rounds k n).
Proof.
  intros Hlow Hhigh Hdelay. unfold fault_rounds.
  apply Forall_concat, Forall_replicate. unfold fault_round.
  rewrite Forall_app. split; [by apply flash_pattern_Forall|].
  by repeat constructor.
Qed.

(** The three ways bring-up can fail, each with what [setup()] has done
    after [fuel] rounds of the loop it is caught in. *)
Lemma setup_camera_fault (fuel : nat) (inp : setup_input) (w : world) :
  camera_init_err inp <> ESP_OK ->
  setup fuel inp w
  = Spinning (emit (camera_stage inp ++ camera_report inp
                    ++ fault_rounds fuel CAMI_FLASH_COUNT) w).
Proof.
  intros H. unfold setup.
  assert ((camera_init_err inp =? ESP_OK) = false) as -> by (by apply Z.eqb_neq).
  simpl negb. cbv iota. rewrite fault_loop_spins by (by vm_compute).
  f_equal. world_eq.
Qed.

Lemma setup_mount_fault (fuel : nat) (inp : setup_input) (w : world) :
  camera_init_err inp = ESP_OK -> sd_begin_ok inp = false ->
  setup fuel inp w
  = Spinning (emit (camera_stage inp ++ mount_stage ++ mount_report
                    ++ fault_rounds fuel SDMI_FLASH_COUNT) w).
Proof.
  intros H1 H2. unfold setup. rewrite H1, H2. simpl negb. cbv iota.
  rewrite fault_loop_spins by (by vm_compute).
  f_equal. world_eq.
Qed.

Lemma setup_card_fault (fuel : nat) (inp : setup_input) (w : world) :
  camera_init_err inp = ESP_OK -> sd_begin_ok inp = true ->
  card_type inp = CARD_NONE ->
  setup fuel inp w
  = Spinning (emit (camera_stage inp ++ mount_stage ++ card_stage ++ card_report
                    ++ fault_rounds fuel SDCI_FLASH_COUNT) w).
Proof.
  intros H1 H2 H3. unfold setup. rewrite H1, H2, H3. simpl negb. cbv iota.
  rewrite fault_loop_spins by (by vm_compute).
  f_equal. world_eq.
Qed.

(** Bring-up with nothing wrong: every stage in turn, the counter loaded from
    the EEPROM, then the ready wave, and [setup()] returns. *)
Lemma setup_ready (fuel : nat) (inp : setup_input) (w : world) :
  camera_init_err inp = ESP_OK -> sd_begin_ok inp = true ->
  card_type inp <> CARD_NONE ->
  setup fuel inp w
  = Done (mkWorld (eeprom_flash w) (clickedMillis w) (eeprom_flash w)
                  (eeprom_flash w) (sdcard w)
                  (trace w ++ camera_stage inp ++ mount_stage ++ card_stage
                   ++ counter_stage ++ trigger_stage
                   ++ flash_pattern 5 FLASH_MILLIS)).
Proof.
  intros H1 H2 H3. unfold setup. rewrite H1, H2.
  assert ((card_type inp =? CARD_NONE) = false) as -> by (by apply Z.eqb_neq).
  simpl negb. cbv iota. rewrite flash_wave. f_equal. world_eq.
Qed.

(** C7: bring-up stops at the first stage that fails.  A camera-init
    failure leaves [setup()] in a loop of groups of exactly 2 flashes, a
    mount failure in groups of exactly 3, a missing card in groups of
    exactly 4, each group followed by a pause of 1000 ms; however many
    rounds are run, [setup()] has not returned, and nothing of a later stage
    (mounting or probing the card, loading the counter, starting the
    trigger, the ready signal) has been done.  Only when no stage fails do
    the later stages run, in their order, and [setup()] returns. *)
Theorem C7_fault_loops (fuel : nat) (inp : setup_input) (w : world) :
  (camera_init_err inp <> ESP_OK ->
   let done := camera_stage inp ++ camera_report inp
               ++ fault_rounds fuel CAMI_FLASH_COUNT in
   setup fuel inp w = Spinning (emit done w) /\
   Forall (fun e => is_storage_stage e = false
                    /\ is_counter_or_trigger_stage e = false) done) /\
  (camera_init_err inp = ESP_OK -> sd_begin_ok inp = false ->
   let done := camera_stage inp ++ mount_stage ++ mount_report
               ++ fault_rounds fuel SDMI_FLASH_COUNT in
   setup fuel inp w = Spinning (emit done w) /\
   Forall (fun e => e <> SdCardType
                    /\ is_counter_or_trigger_stage e = false) done) /\
  (camera_init_err inp = ESP_OK -> sd_begin_ok inp = true ->
   card_type inp = CARD_NONE ->
   let done := camera_stage inp ++ mount_stage ++ card_stage ++ card_report
               ++ fault_rounds fuel SDCI_FLASH_COUNT in
   setup fuel inp w = Spinning (emit done w) /\
   Forall (fun e => is_counter_or_trigger_stage e = false) done) /\
  (camera_init_err inp = ESP_OK -> sd_begin_ok inp = true ->
   card_type inp <> CARD_NONE ->
   exists w', setup fuel inp w = Done w' /\
     trace w' = trace w ++ camera_stage inp ++ mount_stage ++ card_stage
                ++ counter_stage ++ trigger_stage
                ++ flash_pattern 5 FLASH_MILLIS) /\
  (fault_round CAMI_FLASH_COUNT = flash_pattern 2 FLASH_MILLIS ++ [Delay 1000] /\
   fault_round SDMI_FLASH_COUNT = flash_pattern 3 FLASH_MILLIS ++ [Delay 1000] /\
   fault_round SDCI_FLASH_COUNT = flash_pattern 4 FLASH_MILLIS ++ [Delay 1000]) /\
  (forall n : nat, flashes (flash_pattern n FLASH_MILLIS) = n).
Proof.
  split; [|split; [|split; [|split; [|split]]]].
  - intros H done. split; [by apply setup_camera_fault|].
    subst done. rewrite !Forall_app. split; [|split].
    + repeat constructor.
    + repeat constructor.
    + by apply fault_rounds_Forall.
  - intros H1 H2 done. split; [by apply setup_mount_fault|].
    subst done. rewrite !Forall_app. split; [|split; [|split]].
    + repeat constructor; discriminate.
    + repeat constructor; discriminate.
    + repeat constructor; discriminate.
    + by apply fault_rounds_Forall.
  - intros H1 H2 H3 done. split; [by apply setup_card_fault|].
    subst done. rewrite !Forall_app. split; [|split; [|split; [|split]]].
    + repeat constructor.
    + repeat constructor.
    + repeat constructor.
    + repeat constructor.
    + by apply fault_rounds_Forall.
  - intros H1 H2 H3. eexists. split; [by apply setup_ready|]. reflexivity.
  - repeat split.
  - intros n. apply flashes_pattern.
Qed.

Lemma C7_fault_loops_witness :
  setup 2 camera_fails (power_on 7 ∅)
  = Spinning (emit (camera_stage camera_fails ++ camera_report camera_fails
                    ++ fault_rounds 2 CAMI_FLASH_COUNT) (power_on 7 ∅)) /\
  setup 2 mount_fails (power_on 7 ∅)
  = Spinning (emit (camera_stage mount_fails ++ mount_stage ++ mount_report
                    ++ fault_rounds 2 SDMI_FLASH_COUNT) (power_on 7 ∅)) /\
  setup 2 card_missing (power_on 7 ∅)
  = Spinning (emit (camera_stage card_missing ++ mount_stage ++ card_stage
                    ++ card_report ++ fault_rounds 2 SDCI_FLASH_COUNT)
                   (power_on 7 ∅)).
Proof.
  split; [|split].
  - refine (proj1 (proj1 (C7_fault_loops 2 camera_fails (power_on 7 ∅)) _)).
    discriminate.
  - exact (proj1 (proj1 (proj2 (C7_fault_loops 2 mount_fails (power_on 7 ∅)))
                    eq_refl eq_refl)).
  - exact (proj1 (proj1 (proj2 (proj2 (C7_fault_loops 2 card_missing (power_on 7 ∅))))
                    eq_refl eq_refl eq_refl)).
Defined.

(** ** The idle timeout *)

Lemma before_idle_test_awake (inp : loop_input) (w : world) :
  Forall (fun e => is_sleep_event e = false) (before_idle_test inp w).
Proof.
  unfold before_idle_test.
  destruct (shutter_clicked inp), (fb_get inp), (open_ok inp); repeat constructor.
Qed.

(** C8: the idle clock starts at the time the first call of [loop()] reads
    and is set to the current time by every capture attempt, whether or not
    the capture goes through.  A call of [loop()] that reaches the idle test
    with more than 300000 ms elapsed on that clock closes the EEPROM, makes
    the default wave of 5 flashes and starts deep sleep, which ends the run:
    no later call of [loop()] takes place.  With 300000 ms or less elapsed it
    does none of this and returns.  A call that abandons a capture has just
    reset the clock and returns without the test. *)
Theorem C8_idle_timeout (inp : loop_input) (rest : list loop_input) (w : world) :
  let clock := if shutter_clicked inp then millis_clicked inp else idle_clock inp w in
  let elapsed := uint32 (millis_idle inp - clock) in
  let sleeps := reaches_idle_test inp && (AWAKE_MILLIS <? elapsed) in
  let w' := world_of (loop inp w) in
  (clickedMillis w = None -> idle_clock inp w = millis_first inp) /\
  clickedMillis w' = Some clock /\
  (shutter_clicked inp = true -> uint32 (millis_clicked inp - clock) = 0) /\
  trace w' = trace w ++ before_idle_test inp w ++ (if sleeps then sleep_events else []) /\
  sleep_events = [EepromEnd; SerialPrint ("Going to sleep." +:+ nl)]
                 ++ flash_pattern (Z.to_nat WAVE_FLASH_COUNT) FLASH_MILLIS
                 ++ [DeepSleepStart] /\
  (if sleeps
   then loop inp w = Asleep w' /\ run (inp :: rest) w = Asleep w'
   else loop inp w = Done w' /\ run (inp :: rest) w = run rest w').
Proof.
  cbv zeta. unfold reaches_idle_test, before_idle_test.
  split; [unfold idle_clock; by intros ->|].
  assert (Hzero : forall t, uint32 (t - t) = 0)
    by (intros t; by rewrite Z.sub_diag).
  destruct (shutter_clicked inp) eqn:Hc.
  - destruct (fb_get inp) as [fb|] eqn:Hf; [destruct (open_ok inp) eqn:Ho|];
      cbn [run].
    + rewrite (loop_captured inp fb) by assumption.
      rewrite idle_check_cases.
      destruct (AWAKE_MILLIS <? _); cbn [andb bind world_of];
        unfold captured; world_fields;
        rewrite ?app_nil_r; repeat split; auto.
    + rewrite (loop_open_failed inp fb) by assumption.
      cbn [andb bind world_of]. world_fields.
      rewrite ?app_nil_r; repeat split; auto.
    + rewrite loop_fb_failed by assumption.
      cbn [andb bind world_of]. world_fields.
      rewrite ?app_nil_r; repeat split; auto.
  - cbn [run]. rewrite loop_not_clicked by assumption.
    rewrite idle_check_cases.
    destruct (AWAKE_MILLIS <? _); cbn [andb bind world_of]; world_fields;
      rewrite ?app_nil_r; repeat split; auto; discriminate.
Qed.

Lemma C8_idle_timeout_witness :
  let w := world_of (setup 0 bring_up_ok (power_on 7 ∅)) in
  loop (no_click 305001) w = Asleep (world_of (loop (no_click 305001) w)) /\
  loop (no_click 305000) w = Done (world_of (loop (no_click 305000) w)) /\
  clickedMillis (world_of (loop click_fb_null w)) = Some 6000.
Proof.
  intros w. split; [|split].
  - destruct (C8_idle_timeout (no_click 305001) [] w) as (_ & _ & _ & _ & _ & H).
    exact (proj1 H).
  - destruct (C8_idle_timeout (no_click 305000) [] w) as (_ & _ & _ & _ & _ & H).
    exact (proj1 H).
  - destruct (C8_idle_timeout click_fb_null [] w) as (_ & H & _).
    exact H.
Defined.

(** * Further properties of the code *)

(** ** What one call of [loop()] does to each part of the world *)

Lemma loop_trace (inp : loop_input) (w : world) :
  trace (world_of (loop inp w)) = trace w ++ loop_events inp w.
Proof.
  unfold loop_events, falls_asleep, clock_after, reaches_idle_test, before_idle_test.
  destruct (shutter_clicked inp) eqn:Hc.
  - destruct (fb_get inp) as [fb|] eqn:Hf; [destruct (open_ok inp) eqn:Ho|].
    + rewrite (loop_captured inp fb) by assumption. rewrite idle_check_cases.
      destruct (AWAKE_MILLIS <? _); cbn [andb world_of];
        unfold captured; world_fields; by rewrite ?app_nil_r.
    + rewrite (loop_open_failed inp fb) by assumption.
      cbn [andb world_of]. world_fields. by rewrite ?app_nil_r.
    + rewrite loop_fb_failed by assumption.
      cbn [andb world_of]. world_fields. by rewrite ?app_nil_r.
  - rewrite loop_not_clicked by assumption. rewrite idle_check_cases.
    destruct (AWAKE_MILLIS <? _); cbn [andb world_of]; world_fields;
      by rewrite ?app_nil_r.
Qed.

Lemma loop_outcome (inp : loop_input) (w : world) :
  loop inp w = if falls_asleep inp w then Asleep (world_of (loop inp w))
               else Done (world_of (loop inp w)).
Proof.
  unfold falls_asleep, clock_after, reaches_idle_test.
  destruct (shutter_clicked inp) eqn:Hc.
  - destruct (fb_get inp) as [fb|] eqn:Hf; [destruct (open_ok inp) eqn:Ho|].
    + rewrite (loop_captured inp fb) by assumption. rewrite idle_check_cases.
      by destruct (AWAKE_MILLIS <? _).
    + by rewrite (loop_open_failed inp fb) by assumption.
    + by rewrite loop_fb_failed by assumption.
  - rewrite loop_not_clicked by assumption. rewrite idle_check_cases.
    by destruct (AWAKE_MILLIS <? _).
Qed.

Lemma loop_imageCtr (inp : loop_input) (w : world) :
  imageCtr (world_of (loop inp w))
  = if acquired inp =? 0 then imageCtr w else uint16 (imageCtr w + 1).
Proof.
  unfold acquired. destruct (shutter_clicked inp) eqn:Hc.
  - destruct (fb_get inp) as [fb|] eqn:Hf; [destruct (open_ok inp) eqn:Ho|].
    + rewrite (loop_captured inp fb) by assumption.
      by destruct (idle_check_vars (millis_clicked inp) inp (captured inp fb w))
        as (-> & _).
    + by rewrite (loop_open_failed inp fb) by assumption.
    + by rewrite loop_fb_failed by assumption.
  - rewrite loop_not_clicked by assumption.
    by destruct (idle_check_vars (idle_clock inp w) inp
                   (set_clickedMillis (idle_clock inp w) w)) as (-> & _).
Qed.

(** Without both the frame and the file, [loop()] leaves the EEPROM and the
    card alone. *)
Lemma loop_keeps_stores (inp : loop_input) (w : world) :
  completes_capture inp = false ->
  let w' := world_of (loop inp w) in
  eeprom_ram w' = eeprom_ram w /\ eeprom_flash w' = eeprom_flash w /\
  sdcard w' = sdcard w.
Proof.
  unfold completes_capture. intros H.
  destruct (shutter_clicked inp) eqn:Hc.
  - destruct (fb_get inp) as [fb|] eqn:Hf; [destruct (open_ok inp) eqn:Ho|].
    + discriminate H.
    + by rewrite (loop_open_failed inp fb) by assumption.
    + by rewrite loop_fb_failed by assumption.
  - rewrite loop_not_clicked by assumption. cbv zeta.
    by destruct (idle_check_vars (idle_clock inp w) inp
                   (set_clickedMillis (idle_clock inp w) w))
      as (_ & _ & -> & -> & ->).
Qed.

(** With both, they hold the new counter and the new file. *)
Lemma loop_updates_stores (inp : loop_input) (fb : frame) (w : world) :
  shutter_clicked inp = true -> fb_get inp = Some fb -> open_ok inp = true ->
  let w' := world_of (loop inp w) in
  let ctr := uint16 (imageCtr w + 1) in
  eeprom_ram w' = ctr /\ eeprom_flash w' = ctr /\
  sdcard w' = <[image_path ctr := take (Z.to_nat (write_sz inp)) fb]> (sdcard w).
Proof.
  intros Hc Hf Ho. cbv zeta. rewrite (loop_captured inp fb) by assumption.
  by destruct (idle_check_vars (millis_clicked inp) inp (captured inp fb w))
    as (_ & _ & -> & -> & ->).
Qed.

(** ** What [setup()] does to each part of the world *)

Lemma setup_trace (fuel : nat) (inp : setup_input) (w : world) :
  trace (world_of (setup fuel inp w)) = trace w ++ setup_events fuel inp.
Proof.
  unfold setup_events.
  destruct (Z.eqb_spec (camera_init_err inp) ESP_OK) as [H1|H1]; cbn [negb].
  - destruct (sd_begin_ok inp) eqn:H2; cbn [negb].
    + destruct (Z.eqb_spec (card_type inp) CARD_NONE) as [H3|H3].
      * by rewrite setup_card_fault by assumption.
      * by rewrite setup_ready by assumption.
    + by rewrite setup_mount_fault by assumption.
  - by rewrite setup_camera_fault by assumption.
Qed.

Lemma setup_keeps_stores (fuel : nat) (inp : setup_input) (w : world) :
  let w' := world_of (setup fuel inp w) in
  eeprom_flash w' = eeprom_flash w /\ sdcard w' = sdcard w.
Proof.
  destruct (Z.eqb_spec (camera_init_err inp) ESP_OK) as [H1|H1].
  - destruct (sd_begin_ok inp) eqn:H2.
    + destruct (Z.eqb_spec (card_type inp) CARD_NONE) as [H3|H3].
      * by rewrite setup_card_fault by assumption.
      * by rewrite setup_ready by assumption.
    + by rewrite setup_mount_fault by assumption.
  - by rewrite setup_camera_fault by assumption.
Qed.

(** ** Invariants of runs *)

Lemma run_preserves (I : world -> Prop) :
  (forall inp w, I w -> I (world_of (loop inp w))) ->
  forall ins w, I w -> I (world_of (run ins w)).
Proof.
  intros Hloop. induction ins as [|inp ins IH]; intros w Hw; cbn [run]; [done|].
  pose proof (Hloop inp w Hw) as H1.
  destruct (loop inp w) as [w1|w1|w1]; cbn [bind world_of] in *; auto.
Qed.

Lemma firmware_preserves (I : world -> Prop) (fuel : nat) (sinp : setup_input)
    (ins : list loop_input) (stored : Z) (card : gmap string frame) :
  I (world_of (setup fuel sinp (power_on stored card))) ->
  (forall inp w, I w -> I (world_of (loop inp w))) ->
  I (world_of (firmware fuel sinp ins stored card)).
Proof.
  intros H0 Hloop. unfold firmware.
  destruct (setup fuel sinp (power_on stored card)) as [w0|w0|w0];
    cbn [bind world_of] in *; auto.
  by apply run_preserves.
Qed.

(** ** Time spent flashing *)

Lemma delay_total_app (es1 es2 : list event) :
  delay_total (es1 ++ es2) = delay_total es1 + delay_total es2.
Proof.
  unfold delay_total. induction es1 as [|e es1 IH]; cbn [app foldr]; [lia|].
  destruct e; lia.
Qed.

Lemma delay_total_flash_pattern (n : nat) (d : Z) :
  delay_total (flash_pattern (S n) d) = (2 * Z.of_nat n + 1) * d.
Proof.
  induction n as [|n IH].
  - cbn. lia.
  - change (flash_pattern (S (S n)) d)
      with (one_flash d ++ [Delay d] ++ flash_pattern (S n) d).
    rewrite !delay_total_app, IH. cbn. lia.
Qed.

Lemma delay_total_fault_rounds (k : nat) (n : nat) :
  delay_total (fault_rounds k (Z.of_nat (S n)))
  = Z.of_nat k * ((2 * Z.of_nat n + 1) * FLASH_MILLIS + FAIL_MILLIS).
Proof.
  unfold fault_rounds, fault_round. rewrite Nat2Z.id.
  induction k as [|k IH]; [reflexivity|].
  cbn [replicate concat]. rewrite !delay_total_app, IH, delay_total_flash_pattern.
  cbn [delay_total foldr]. lia.
Qed.

(** X1: for every count and duration [d] in 0..255, the values of the
    [uint8_t] parameters, a call of [flashBuiltinLed(count, d)] returns after
    spending (2 * count - 1) * d milliseconds in [delay()], and none at all
    when [count] is 0. *)
Theorem X1_flash_blocking_time (count d : Z) (w : world) :
  is_uint8 count -> is_uint8 d ->
  exists es, flashBuiltinLed count d w = Done (emit es w) /\
    delay_total es = if count =? 0 then 0 else (2 * count - 1) * d.
Proof.
  intros Hc Hd. exists (flash_pattern (Z.to_nat count) d).
  split; [by apply flashBuiltinLed_done|].
  destruct Hc as [H0 _]. destruct (Z.eqb_spec count 0) as [->|Hne]; [reflexivity|].
  replace (Z.to_nat count) with (S (Z.to_nat (count - 1))) by lia.
  rewrite delay_total_flash_pattern, Z2Nat.id by lia. f_equal. lia.
Qed.

Lemma X1_flash_blocking_time_witness :
  is_uint8 5 /\ is_uint8 200 /\
  exists es, flashBuiltinLed 5 200 (power_on 0 ∅) = Done (emit es (power_on 0 ∅)) /\
    delay_total es = 1800.
Proof.
  assert (H5 : is_uint8 5) by (unfold is_uint8; lia).
  assert (H200 : is_uint8 200) by (unfold is_uint8; lia).
  split; [exact H5|]. split; [exact H200|].
  exact (X1_flash_blocking_time 5 200 (power_on 0 ∅) H5 H200).
Defined.

Lemma setup_events_delay (fuel : nat) (inp : setup_input) :
  delay_total (setup_events fuel inp)
  = if negb (camera_init_err inp =? ESP_OK) then Z.of_nat fuel * 1600
    else if negb (sd_begin_ok inp) then Z.of_nat fuel * 2000
    else if card_type inp =? CARD_NONE then Z.of_nat fuel * 2400
    else 1800.
Proof.
  unfold setup_events.
  destruct (negb (camera_init_err inp =? ESP_OK));
    [|destruct (negb (sd_begin_ok inp));
      [|destruct (card_type inp =? CARD_NONE)]];
    rewrite !delay_total_app.
  - change CAMI_FLASH_COUNT with (Z.of_nat 2).
    rewrite delay_total_fault_rounds. cbn. unfold FLASH_MILLIS, FAIL_MILLIS. lia.
  - change SDMI_FLASH_COUNT with (Z.of_nat 3).
    rewrite delay_total_fault_rounds. cbn. unfold FLASH_MILLIS, FAIL_MILLIS. lia.
  - change SDCI_FLASH_COUNT with (Z.of_nat 4).
    rewrite delay_total_fault_rounds. cbn. unfold FLASH_MILLIS, FAIL_MILLIS. lia.
  - reflexivity.
Qed.

(** X2: when bring-up fails, every round of the fault loop spends the same
    time in [delay()], 1600 ms for a camera fault, 2000 ms for a mount fault
    and 2400 ms for a missing card, and nothing before the loop delays; a
    bring-up that succeeds delays for the 1800 ms of the ready wave only. *)
Theorem X2_fault_loop_period (fuel : nat) (inp : setup_input) (w : world) :
  let t := delay_total (trace (world_of (setup fuel inp w))) - delay_total (trace w) in
  (camera_init_err inp <> ESP_OK -> t = Z.of_nat fuel * 1600) /\
  (camera_init_err inp = ESP_OK -> sd_begin_ok inp = false ->
   t = Z.of_nat fuel * 2000) /\
  (camera_init_err inp = ESP_OK -> sd_begin_ok inp = true ->
   card_type inp = CARD_NONE -> t = Z.of_nat fuel * 2400) /\
  (camera_init_err inp = ESP_OK -> sd_begin_ok inp = true ->
   card_type inp <> CARD_NONE -> t = 1800).
Proof.
  cbv zeta. rewrite setup_trace, delay_total_app, setup_events_delay.
  repeat split.
  - intros H. apply Z.eqb_neq in H. rewrite H. cbn [negb]. lia.
  - intros H1 H2. rewrite H1, H2. cbn [negb Z.eqb ESP_OK]. lia.
  - intros H1 H2 H3. rewrite H1, H2, H3. cbn [negb Z.eqb ESP_OK CARD_NONE]. lia.
  - intros H1 H2 H3. apply Z.eqb_neq in H3. rewrite H1, H2, H3.
    cbn [negb Z.eqb ESP_OK]. lia.
Qed.

Lemma X2_fault_loop_period_witness :
  let t sinp := delay_total (trace (world_of (setup 3 sinp (power_on 7 ∅))))
                - delay_total (trace (power_on 7 ∅)) in
  t camera_fails = 4800 /\ t mount_fails = 6000 /\ t card_missing = 7200 /\
  t bring_up_ok = 1800.
Proof.
  intros t. subst t. cbv beta. split; [|split; [|split]].
  - refine (proj1 (X2_fault_loop_period 3 camera_fails (power_on 7 ∅)) _).
    discriminate.
  - exact (proj1 (proj2 (X2_fault_loop_period 3 mount_fails (power_on 7 ∅)))
             eq_refl eq_refl).
  - exact (proj1 (proj2 (proj2 (X2_fault_loop_period 3 card_missing (power_on 7 ∅))))
             eq_refl eq_refl eq_refl).
  - refine (proj2 (proj2 (proj2 (X2_fault_loop_period 3 bring_up_ok (power_on 7 ∅))))
             eq_refl eq_refl _).
    discriminate.
Defined.

(** ** The indicator at rest *)

Lemma final_led_app (l : level) (es1 es2 : list event) :
  final_led l (es1 ++ es2) = final_led (final_led l es1) es2.
Proof. unfold final_led. apply foldl_app. Qed.

Lemma final_led_flash_pattern (n : nat) (d : Z) (l : level) :
  final_led l (flash_pattern (S n) d) = HIGH.
Proof.
  revert l. induction n as [|n IH]; intros l; [reflexivity|].
  change (flash_pattern (S (S n)) d)
    with (one_flash d ++ [Delay d] ++ flash_pattern (S n) d).
  by rewrite !final_led_app, IH.
Qed.

Lemma final_led_flash_pattern_high (n : nat) (d : Z) :
  final_led HIGH (flash_pattern n d) = HIGH.
Proof. destruct n; [reflexivity | apply final_led_flash_pattern]. Qed.

Lemma final_led_fault_rounds (k : nat) (n : Z) :
  final_led HIGH (fault_rounds k n) = HIGH.
Proof.
  unfold fault_rounds, fault_round. induction k as [|k IH]; [reflexivity|].
  cbn [replicate concat].
  by rewrite !final_led_app, final_led_flash_pattern_high.
Qed.

Lemma final_led_setup_events (fuel : nat) (inp : setup_input) (l : level) :
  final_led l (setup_events fuel inp) = HIGH.
Proof.
  unfold setup_events. rewrite final_led_app.
  assert (final_led l (camera_stage inp) = HIGH) as -> by reflexivity.
  destruct (negb (camera_init_err inp =? ESP_OK));
    [|destruct (negb (sd_begin_ok inp));
      [|destruct (card_type inp =? CARD_NONE)]];
    rewrite ?final_led_app; cbn [final_led foldl led_step mount_stage card_stage
      camera_report mount_report card_report counter_stage trigger_stage];
    fold (final_led HIGH (fault_rounds fuel CAMI_FLASH_COUNT));
    fold (final_led HIGH (fault_rounds fuel SDMI_FLASH_COUNT));
    fold (final_led HIGH (fault_rounds fuel SDCI_FLASH_COUNT));
    rewrite ?final_led_fault_rounds; reflexivity.
Qed.

Lemma final_led_loop_events (inp : loop_input) (w : world) :
  final_led HIGH (loop_events inp w) = HIGH.
Proof.
  unfold loop_events, before_idle_test. rewrite final_led_app.
  assert (Hsleep : final_led HIGH (if falls_asleep inp w then sleep_events else [])
                   = HIGH) by (by destruct (falls_asleep inp w)).
  destruct (shutter_clicked inp); [|exact Hsleep].
  destruct (fb_get inp) as [fb|]; [destruct (open_ok inp)|]; exact Hsleep.
Qed.

(** X3: the indicator is never left on.  Whatever the drivers answer,
    whenever [setup()] or a call of [loop()] has returned, the device has
    gone to sleep or a fault loop has finished a round, the last thing
    written to the indicator pin is HIGH, which is off. *)
Theorem X3_indicator_off_at_rest (fuel : nat) (sinp : setup_input)
    (ins : list loop_input) (stored : Z) (card : gmap string frame) (l : level) :
  final_led l (trace (world_of (firmware fuel sinp ins stored card))) = HIGH.
Proof.
  apply (firmware_preserves (fun w => final_led l (trace w) = HIGH)).
  - rewrite setup_trace, final_led_app. apply final_led_setup_events.
  - intros inp w Hw. rewrite loop_trace, final_led_app, Hw.
    apply final_led_loop_events.
Qed.

(** ** The EEPROM and the card *)

Lemma run_keeps_stores (ins : list loop_input) :
  forall w : world,
    Forall (fun inp => completes_capture inp = false) ins ->
    let w' := world_of (run ins w) in
    eeprom_ram w' = eeprom_ram w /\ eeprom_flash w' = eeprom_flash w /\
    sdcard w' = sdcard w.
Proof.
  induction ins as [|inp ins IH]; intros w Hall; cbn [run]; [done|].
  apply Forall_cons in Hall as [Hinp Hins].
  destruct (loop_keeps_stores inp w Hinp) as (H1 & H2 & H3).
  destruct (loop inp w) as [w1|w1|w1]; cbn [bind world_of] in *; auto.
  destruct (IH w1 Hins) as (H4 & H5 & H6). cbv zeta. by rewrite H4, H5, H6.
Qed.

(** X4: the EEPROM and the card change only when a capture gets both its
    frame and its file.  Through bring-up, whether it succeeds or ends in a
    fault loop, and through any calls of [loop()] none of which completes a
    capture (shutter at rest, no frame, no file, or falling asleep), the
    committed counter and every file on the card stay as they were at
    power-on. *)
Theorem X4_stores_untouched_without_capture (fuel : nat) (sinp : setup_input)
    (ins : list loop_input) (stored : Z) (card : gmap string frame) :
  Forall (fun inp => completes_capture inp = false) ins ->
  let w := world_of (firmware fuel sinp ins stored card) in
  eeprom_flash w = stored /\ sdcard w = card.
Proof.
  intros Hall. unfold firmware.
  destruct (setup_keeps_stores fuel sinp (power_on stored card)) as [H1 H2].
  destruct (setup fuel sinp (power_on stored card)) as [w0|w0|w0];
    cbn [bind world_of] in *; auto.
  destruct (run_keeps_stores ins w0 Hall) as (_ & H3 & H4).
  cbv zeta. by rewrite H3, H4.
Qed.

Lemma X4_stores_untouched_without_capture_witness :
  let ins := [no_click 7000; click_fb_null; click_open_fails; no_click 400000] in
  let card : gmap string frame := {["/Image8.jpg" := [1; 2]]} in
  let w := world_of (firmware 0 bring_up_ok ins 7 card) in
  eeprom_flash w = 7 /\ sdcard w = card.
Proof.
  intros ins card.
  apply (X4_stores_untouched_without_capture 0 bring_up_ok ins 7 card).
  subst ins.
  repeat (apply List.Forall_cons); try apply List.Forall_nil; reflexivity.
Defined.

(** A [setup()] that returns leaves exactly the world of a clean bring-up. *)
Lemma setup_done_world (fuel : nat) (inp : setup_input) (w w0 : world) :
  setup fuel inp w = Done w0 ->
  w0 = mkWorld (eeprom_flash w) (clickedMillis w) (eeprom_flash w)
               (eeprom_flash w) (sdcard w) (trace w ++ setup_events fuel inp).
Proof.
  intros H. pose proof (setup_trace fuel inp w) as Htr.
  destruct (Z.eqb_spec (camera_init_err inp) ESP_OK) as [H1|H1];
    [|by rewrite setup_camera_fault in H by assumption].
  destruct (sd_begin_ok inp) eqn:H2;
    [|by rewrite setup_mount_fault in H by assumption].
  destruct (Z.eqb_spec (card_type inp) CARD_NONE) as [H3|H3];
    [by rewrite setup_card_fault in H by assumption|].
  rewrite setup_ready in H, Htr by assumption. injection H as <-.
  cbn [world_of trace] in Htr. by rewrite <- Htr.
Qed.

Lemma loop_eeprom_coherent (inp : loop_input) (w : world) :
  eeprom_ram w = eeprom_flash w ->
  eeprom_ram (world_of (loop inp w)) = eeprom_flash (world_of (loop inp w)).
Proof.
  intros Hw. destruct (completes_capture inp) eqn:Hcap.
  - unfold completes_capture in Hcap.
    destruct (shutter_clicked inp) eqn:Hc; [|discriminate].
    destruct (fb_get inp) as [fb|] eqn:Hf; [|discriminate]. cbn [andb] in Hcap.
    destruct (loop_updates_stores inp fb w Hc Hf Hcap) as (-> & -> & _). done.
  - destruct (loop_keeps_stores inp w Hcap) as (-> & -> & _). done.
Qed.

(** X5: no EEPROM write is left uncommitted.  Once [setup()] has returned,
    after any calls of [loop()] the value in the EEPROM library's buffer is
    the committed one: every [writeUShort] has had its [commit] before
    [loop()] returns or the device sleeps. *)
Theorem X5_eeprom_always_committed (fuel : nat) (sinp : setup_input)
    (ins : list loop_input) (w w0 : world) :
  setup fuel sinp w = Done w0 ->
  eeprom_ram (world_of (run ins w0)) = eeprom_flash (world_of (run ins w0)).
Proof.
  intros H. apply setup_done_world in H. subst w0.
  apply (run_preserves (fun w => eeprom_ram w = eeprom_flash w)).
  - apply loop_eeprom_coherent.
  - reflexivity.
Qed.

Lemma X5_eeprom_always_committed_witness :
  let w0 := world_of (setup 0 bring_up_ok (power_on 7 ∅)) in
  let ins := [click_ok; click_open_fails; click_ok] in
  eeprom_ram (world_of (run ins w0)) = eeprom_flash (world_of (run ins w0)).
Proof.
  intros w0 ins.
  exact (X5_eeprom_always_committed 0 bring_up_ok ins (power_on 7 ∅) w0 eq_refl).
Defined.

(** X6: the counter survives a reset together with the image it numbers.
    After a capture that got its frame and its file, a reset followed by a
    bring-up that succeeds loads the same counter, the file of that number on
    the card holds what the capture wrote, and the idle clock starts
    afresh. *)
Theorem X6_counter_survives_reset (inp : loop_input) (fb : frame) (w w2 : world)
    (fuel : nat) (sinp : setup_input) :
  shutter_clicked inp = true -> fb_get inp = Some fb -> open_ok inp = true ->
  let w1 := world_of (loop inp w) in
  setup fuel sinp (reset w1) = Done w2 ->
  imageCtr w2 = imageCtr w1 /\
  eeprom_flash w2 = imageCtr w1 /\
  sdcard w2 !! image_path (imageCtr w2) = Some (take (Z.to_nat (write_sz inp)) fb) /\
  clickedMillis w2 = None.
Proof.
  intros Hc Hf Ho w1 Hsetup. subst w1.
  apply setup_done_world in Hsetup. subst w2. unfold reset, power_on.
  cbn [imageCtr eeprom_flash sdcard clickedMillis].
  destruct (loop_updates_stores inp fb w Hc Hf Ho) as (_ & -> & ->).
  rewrite loop_imageCtr. unfold acquired. rewrite Hc, Hf. cbn [Z.eqb].
  repeat split. by rewrite lookup_insert_eq.
Qed.

Lemma X6_counter_survives_reset_witness :
  let w := world_of (setup 0 bring_up_ok (power_on 7 ∅)) in
  let w1 := world_of (loop click_ok w) in
  let w2 := world_of (setup 0 bring_up_ok (reset w1)) in
  imageCtr w2 = imageCtr w1 /\ eeprom_flash w2 = imageCtr w1.
Proof.
  intros w w1 w2.
  destruct (X6_counter_survives_reset click_ok sample_frame w w2 0 bring_up_ok
              eq_refl eq_refl eq_refl eq_refl) as (H1 & H2 & _).
  split; [exact H1 | exact H2].
Defined.

(** ** The idle clock *)

Lemma uint32_elapsed (t0 e : Z) :
  0 <= e < 2 ^ 32 -> uint32 (uint32 (t0 + e) - t0) = e.
Proof.
  intros He. unfold uint32. rewrite Zminus_mod_idemp_l.
  replace (t0 + e - t0) with e by lia. by apply Z.mod_small.
Qed.

Lemma set_clickedMillis_same (c : Z) (w : world) :
  clickedMillis w = Some c -> set_clickedMillis c w = w.
Proof. destruct w; cbn. by intros ->. Qed.

Lemma loop_at_rest (inp : loop_input) (w : world) (t0 : Z) :
  shutter_clicked inp = false -> clickedMillis w = Some t0 ->
  loop inp w = if AWAKE_MILLIS <? uint32 (millis_idle inp - t0)
               then Asleep (emit sleep_events w) else Done w.
Proof.
  intros Hc Hclk. rewrite loop_not_clicked by assumption.
  assert (idle_clock inp w = t0) as -> by (unfold idle_clock; by rewrite Hclk).
  rewrite set_clickedMillis_same by assumption. apply idle_check_cases.
Qed.

(** X7: the idle test is right across the roll-over of [millis()].  If the
    shutter is at rest and [e] milliseconds (less than 2^32) have passed
    since the clock value [t0] was recorded, so that [millis()] now reads
    (t0 + e) mod 2^32, then [loop()] puts the device to sleep exactly when
    e > 300000, and otherwise returns having changed nothing. *)
Theorem X7_idle_test_across_rollover (inp : loop_input) (w : world) (t0 e : Z) :
  shutter_clicked inp = false -> clickedMillis w = Some t0 ->
  0 <= e < 2 ^ 32 -> millis_idle inp = uint32 (t0 + e) ->
  loop inp w = if AWAKE_MILLIS <? e then Asleep (emit sleep_events w) else Done w.
Proof.
  intros Hc Hclk He Hnow. rewrite (loop_at_rest inp w t0) by assumption.
  by rewrite Hnow, uint32_elapsed.
Qed.

Lemma X7_idle_test_across_rollover_witness :
  let w := set_clickedMillis 4294960000 (power_on 7 ∅) in
  loop (no_click 292705) w = Asleep (emit sleep_events w) /\
  loop (no_click 292704) w = Done w.
Proof.
  intros w. split.
  - refine (X7_idle_test_across_rollover (no_click 292705) w 4294960000 300001
              eq_refl eq_refl _ eq_refl). lia.
  - refine (X7_idle_test_across_rollover (no_click 292704) w 4294960000 300000
              eq_refl eq_refl _ eq_refl). lia.
Defined.

(** Resting calls once the idle clock has its value. *)
Lemma run_at_rest (ins rest : list loop_input) (late : loop_input)
    (w : world) (t0 : Z) :
  clickedMillis w = Some t0 ->
  Forall (fun inp => shutter_clicked inp = false
                     /\ uint32 (millis_idle inp - t0) <= AWAKE_MILLIS) ins ->
  shutter_clicked late = false ->
  AWAKE_MILLIS < uint32 (millis_idle late - t0) ->
  run ins w = Done w /\
  run (ins ++ late :: rest) w = Asleep (emit sleep_events w).
Proof.
  intros Hclk Hall Hlate Htrip.
  assert (Hrun : run ins w = Done w).
  { induction ins as [|inp ins IH]; [reflexivity|].
    apply Forall_cons in Hall as [[Hc Hin] Hins]. cbn [run].
    rewrite (loop_at_rest inp w t0) by assumption.
    assert ((AWAKE_MILLIS <? uint32 (millis_idle inp - t0)) = false) as ->
      by (apply Z.ltb_ge; lia).
    cbn [bind]. by apply IH. }
  split; [exact Hrun|].
  rewrite run_app, Hrun. cbn [bind run].
  rewrite (loop_at_rest late w t0) by assumption.
  assert ((AWAKE_MILLIS <? uint32 (millis_idle late - t0)) = true) as ->
    by (apply Z.ltb_lt; lia).
  reflexivity.
Qed.

(** A resting call from any world, the very first call included: it settles
    the idle clock and then makes the idle test against it. *)
Lemma loop_resting (inp : loop_input) (w : world) :
  shutter_clicked inp = false ->
  let t0 := idle_clock inp w in
  loop inp w = if AWAKE_MILLIS <? uint32 (millis_idle inp - t0)
               then Asleep (emit sleep_events (set_clickedMillis t0 w))
               else Done (set_clickedMillis t0 w).
Proof.
  intros Hc. cbv zeta. rewrite loop_not_clicked by assumption.
  apply idle_check_cases.
Qed.

(** X8: while the shutter is at rest and the idle limit is not passed,
    calls of [loop()] act on nothing.  They only poll the shutter and the
    clock: nothing is added to the trace (no pin written, nothing printed, no
    camera, card or EEPROM call) and no variable changes, but for the idle
    clock taking its initial value in the very first call of [loop()].  The
    first resting call that finds more than 300000 ms elapsed puts the device
    to sleep, and nothing that follows, click or not, is acted on.  The
    clock value [t0] is the one in force at the first of these calls. *)
Theorem X8_idle_calls_do_nothing (ins rest : list loop_input) (late : loop_input)
    (w : world) :
  let t0 := idle_clock (default late (head ins)) w in
  Forall (fun inp => shutter_clicked inp = false
                     /\ uint32 (millis_idle inp - t0) <= AWAKE_MILLIS) ins ->
  shutter_clicked late = false ->
  AWAKE_MILLIS < uint32 (millis_idle late - t0) ->
  run ins w = Done (match ins with [] => w | _ :: _ => set_clickedMillis t0 w end) /\
  run (ins ++ late :: rest) w = Asleep (emit sleep_events (set_clickedMillis t0 w)).
Proof.
  destruct ins as [|first ins]; intros t0 Hall Hlate Htrip.
  - split; [reflexivity|]. cbn [app run].
    rewrite (loop_resting late w Hlate).
    change (idle_clock late w) with t0.
    assert ((AWAKE_MILLIS <? uint32 (millis_idle late - t0)) = true) as ->
      by (apply Z.ltb_lt; lia).
    reflexivity.
  - apply Forall_cons in Hall as [[Hc Hin] Hins].
    cbn [app run]. rewrite (loop_resting first w Hc).
    change (idle_clock first w) with t0.
    assert ((AWAKE_MILLIS <? uint32 (millis_idle first - t0)) = false) as ->
      by (apply Z.ltb_ge; lia).
    cbn [bind].
    apply (run_at_rest ins rest late (set_clickedMillis t0 w) t0);
      [reflexivity | assumption..].
Qed.

Lemma X8_idle_calls_do_nothing_witness :
  let w := world_of (setup 0 bring_up_ok (power_on 7 ∅)) in
  let ins := [no_click 6000; no_click 305000] in
  clickedMillis w = None /\
  run ins w = Done (set_clickedMillis 5000 w) /\
  run (ins ++ no_click 305001 :: [click_ok]) w
  = Asleep (emit sleep_events (set_clickedMillis 5000 w)).
Proof.
  intros w ins. split; [reflexivity|].
  apply (X8_idle_calls_do_nothing ins [click_ok] (no_click 305001) w).
  - subst ins. repeat (apply List.Forall_cons); try apply List.Forall_nil;
      (split; [reflexivity | vm_compute; discriminate]).
  - reflexivity.
  - vm_compute. reflexivity.
Defined.

(** ** File names over a whole session *)

Lemma opened_loop_events (inp : loop_input) (w : world) :
  opened (loop_events inp w)
  = if acquired inp =? 0 then [] else [image_path (uint16 (imageCtr w + 1))].
Proof.
  unfold loop_events, before_idle_test, acquired. rewrite opened_app.
  assert (Hsleep : opened (if falls_asleep inp w then sleep_events else []) = [])
    by (by destruct (falls_asleep inp w)).
  rewrite Hsleep, app_nil_r.
  destruct (shutter_clicked inp); [|reflexivity].
  destruct (fb_get inp) as [fb|]; [destruct (open_ok inp)|]; reflexivity.
Qed.

Lemma calls_made_done (ins : list loop_input) :
  forall w v : world, run ins w = Done v -> calls_made ins w = ins.
Proof.
  induction ins as [|inp ins IH]; intros w v Hrun; [reflexivity|].
  cbn [run calls_made] in *.
  destruct (loop inp w) as [w1|w1|w1]; cbn [bind] in Hrun; try discriminate.
  f_equal. by apply (IH w1 v).
Qed.

Lemma run_names (ins : list loop_input) :
  forall (w : world) (c : Z),
    imageCtr w = c -> 0 <= c -> c + acquisitions (calls_made ins w) <= 65535 ->
    let w' := world_of (run ins w) in
    let n := acquisitions (calls_made ins w) in
    imageCtr w' = c + n /\
    opened (trace w') = opened (trace w) ++ image_paths c (Z.to_nat n).
Proof.
  induction ins as [|inp ins IH]; intros w c Hctr Hc Hroom; cbn [run calls_made].
  - cbn. rewrite app_nil_r. split; [lia | done].
  - cbn [calls_made acquisitions foldr] in Hroom.
    cbn [acquisitions foldr].
    pose proof (acquired_nonneg inp) as Ha.
    pose proof (loop_trace inp w) as Htr.
    pose proof (loop_imageCtr inp w) as Hi.
    pose proof (opened_loop_events inp w) as Ho.
    assert (Hs : (acquired inp =? 0) = false ->
                 uint16 (imageCtr w + 1) = c + 1 /\ acquired inp = 1).
    { intros Hne. apply Z.eqb_neq in Hne.
      assert (acquired inp = 1) as H1
        by (unfold acquired in *;
            destruct (shutter_clicked inp), (fb_get inp); lia).
      split; [|done]. rewrite Hctr. apply uint16_small. unfold is_uint16.
      pose proof (acquisitions_nonneg
                    match loop inp w with
                    | Done w' => calls_made ins w'
                    | _ => []
                    end).
      fold (acquisitions
              match loop inp w with
              | Done w' => calls_made ins w'
              | _ => []
              end) in Hroom.
      lia. }
    destruct (loop inp w) as [w1|w1|w1]; cbn [bind world_of] in *.
    + fold (acquisitions (calls_made ins w1)) in *.
      pose proof (acquisitions_nonneg (calls_made ins w1)) as Hn.
      destruct (acquired inp =? 0) eqn:Hacq.
      * apply Z.eqb_eq in Hacq. rewrite Hacq in *.
        destruct (IH w1 c ltac:(lia) Hc ltac:(lia)) as (H1 & H3).
        cbv zeta. rewrite H3, Htr, opened_app, Ho, app_nil_r.
        split; [lia | done].
      * destruct (Hs eq_refl) as [Hw Hone]. rewrite Hw, Hone in *.
        destruct (IH w1 (c + 1) ltac:(lia) ltac:(lia) ltac:(lia)) as (H1 & H3).
        cbv zeta.
        replace (Z.to_nat (1 + acquisitions (calls_made ins w1)))
          with (S (Z.to_nat (acquisitions (calls_made ins w1)))) by lia.
        rewrite image_paths_cons, H3, Htr, opened_app, Ho.
        rewrite <- app_assoc. split; [lia | done].
    + cbv zeta. cbn [foldr]. rewrite Z.add_0_r.
      destruct (acquired inp =? 0) eqn:Hacq.
      * apply Z.eqb_eq in Hacq. rewrite Hacq, Htr, opened_app, Ho.
        split; [lia | done].
      * destruct (Hs eq_refl) as [Hw Hone]. rewrite Hw, Hone in *.
        rewrite Htr, opened_app, Ho. split; [lia | done].
    + cbv zeta. cbn [foldr]. rewrite Z.add_0_r.
      destruct (acquired inp =? 0) eqn:Hacq.
      * apply Z.eqb_eq in Hacq. rewrite Hacq, Htr, opened_app, Ho.
        split; [lia | done].
      * destruct (Hs eq_refl) as [Hw Hone]. rewrite Hw, Hone in *.
        rewrite Htr, opened_app, Ho. split; [lia | done].
Qed.

(** X9: within one power-on session no file name is asked for twice, failed
    captures included.  Let n be the number of calls of [loop()], among those
    actually made, that got a frame.  From counter C with C + n <= 65535, the
    paths given to [SD_MMC.open] are exactly /Image(C+1).jpg ..
    /Image(C+n).jpg, in that order and hence without duplicates, whether or
    not the files could be created, and the counter ends at C + n.  When the
    device does not fall asleep every call is made. *)
Theorem X9_names_not_reused_in_session (ins : list loop_input) (w : world) (c : Z) :
  imageCtr w = c -> 0 <= c -> c + acquisitions (calls_made ins w) <= 65535 ->
  let w' := world_of (run ins w) in
  let n := acquisitions (calls_made ins w) in
  imageCtr w' = c + n /\
  opened (trace w') = opened (trace w) ++ image_paths c (Z.to_nat n) /\
  NoDup (image_paths c (Z.to_nat n)) /\
  (forall v, run ins w = Done v -> n = acquisitions ins).
Proof.
  intros Hctr Hc Hroom.
  destruct (run_names ins w c Hctr Hc Hroom) as (H1 & H2).
  cbv zeta. repeat split; try assumption.
  - apply image_paths_NoDup.
  - intros v Hv. by rewrite (calls_made_done ins w v).
Qed.

Lemma X9_names_not_reused_in_session_witness :
  let w := world_of (setup 0 bring_up_ok (power_on 7 ∅)) in
  let ins := [click_open_fails; click_fb_null; click_ok] in
  imageCtr (world_of (run ins w)) = 7 + 2 /\
  opened (trace (world_of (run ins w)))
  = opened (trace w) ++ ["/Image8.jpg"; "/Image9.jpg"].
Proof.
  intros w ins.
  destruct (X9_names_not_reused_in_session ins w 7) as (H1 & H2 & _).
  - reflexivity.
  - lia.
  - vm_compute. discriminate.
  - split; [exact H1 | exact H2].
Defined.

(** X10: distinct counters give distinct file names. *)
Theorem X10_image_path_injective (c1 c2 : Z) :
  image_path c1 = image_path c2 <-> c1 = c2.
Proof. split; [apply image_path_inj | by intros ->]. Qed.

(** ** What goes with a commit *)

Lemma count_events_app (p : event -> bool) (es1 es2 : list event) :
  count_events p (es1 ++ es2) = (count_events p es1 + count_events p es2)%nat.
Proof. unfold count_events. by rewrite List.filter_app, length_app. Qed.

Lemma paired_app (es1 es2 : list event) :
  paired es1 -> paired es2 -> paired (es1 ++ es2).
Proof.
  unfold paired. cbv zeta. rewrite !count_events_app.
  intros (H1 & H2 & H3 & H4 & H5 & H6) (K1 & K2 & K3 & K4 & K5 & K6).
  repeat split; lia.
Qed.

Lemma count_events_none (p : event -> bool) (es : list event) :
  Forall (fun e => p e = false) es -> count_events p es = 0%nat.
Proof.
  unfold count_events. induction 1 as [|e es He _ IH]; [reflexivity|].
  cbn [List.filter]. by rewrite He.
Qed.

Lemma paired_fault_rounds (k : nat) (n : Z) : paired (fault_rounds k n).
Proof.
  unfold paired. cbv zeta.
  rewrite !count_events_none; [repeat split; lia |..];
    by apply fault_rounds_Forall.
Qed.

Lemma paired_setup_events (fuel : nat) (inp : setup_input) :
  paired (setup_events fuel inp).
Proof.
  unfold setup_events.
  destruct (negb (camera_init_err inp =? ESP_OK));
    [|destruct (negb (sd_begin_ok inp));
      [|destruct (card_type inp =? CARD_NONE)]];
    repeat (apply paired_app); try apply paired_fault_rounds;
    unfold paired; cbn; repeat split; lia.
Qed.

Lemma paired_loop_events (inp : loop_input) (w : world) :
  paired (loop_events inp w).
Proof.
  unfold loop_events, before_idle_test. apply paired_app.
  - destruct (shutter_clicked inp); [|unfold paired; cbn; repeat split; lia].
    destruct (fb_get inp) as [fb|]; [destruct (open_ok inp)|];
      unfold paired; cbn; repeat split; lia.
  - destruct (falls_asleep inp w); unfold paired; cbn; repeat split; lia.
Qed.

(** X11: whatever the drivers answer, in everything the firmware does from
    power-on there is, for each EEPROM commit, exactly one EEPROM write, one
    file write, one file close and one frame handed back; the files opened
    are at least as many as the commits and at most as many as the frames
    asked for. *)
Theorem X11_capture_calls_paired (fuel : nat) (sinp : setup_input)
    (ins : list loop_input) (stored : Z) (card : gmap string frame) :
  let tr := trace (world_of (firmware fuel sinp ins stored card)) in
  let n := count_events is_eeprom_commit tr in
  count_events is_file_write tr = n /\
  count_events is_eeprom_write tr = n /\
  count_events is_file_close tr = n /\
  count_events is_fb_return tr = n /\
  (n <= count_events is_open tr)%nat /\
  (count_events is_open tr <= count_events is_fb_get tr)%nat.
Proof.
  apply (firmware_preserves (fun w => paired (trace w))).
  - rewrite setup_trace. apply (paired_app []); [|apply paired_setup_events].
    unfold paired; cbn; repeat split; lia.
  - intros inp w Hw. rewrite loop_trace. by apply paired_app, paired_loop_events.
Qed.

(** ** What [file.write] returns *)

(** X12: the value [file.write] returns is never looked at.  A call of
    [loop()] makes the same driver calls, ends the same way and leaves the
    same counters whatever that value is, commit and confirming flash
    included; it only decides how much of the frame is in the file. *)
Theorem X12_write_result_ignored (inp : loop_input) (sz : Z) (w : world) :
  let w1 := world_of (loop inp w) in
  let w2 := world_of (loop (with_write_sz sz inp) w) in
  trace w2 = trace w1 /\ imageCtr w2 = imageCtr w1 /\
  eeprom_flash w2 = eeprom_flash w1 /\
  (loop inp w = Done w1 <-> loop (with_write_sz sz inp) w = Done w2) /\
  forall fb, fb_get inp = Some fb -> completes_capture inp = true ->
    sdcard w2 !! image_path (imageCtr w2) = Some (take (Z.to_nat sz) fb).
Proof.
  cbv zeta. split; [by rewrite !loop_trace|].
  split; [by rewrite !loop_imageCtr|].
  assert (Hflash : eeprom_flash (world_of (loop (with_write_sz sz inp) w))
                   = eeprom_flash (world_of (loop inp w))).
  { destruct (completes_capture inp) eqn:Hcap.
    - unfold completes_capture in Hcap.
      destruct (shutter_clicked inp) eqn:Hc; [|discriminate].
      destruct (fb_get inp) as [fb|] eqn:Hf; [|discriminate]. cbn [andb] in Hcap.
      destruct (loop_updates_stores inp fb w Hc Hf Hcap) as (_ & -> & _).
      by destruct (loop_updates_stores (with_write_sz sz inp) fb w Hc Hf Hcap)
        as (_ & -> & _).
    - destruct (loop_keeps_stores inp w Hcap) as (_ & -> & _).
      by destruct (loop_keeps_stores (with_write_sz sz inp) w Hcap)
        as (_ & -> & _). }
  split; [exact Hflash|]. split.
  - pose proof (loop_outcome inp w) as H1.
    pose proof (loop_outcome (with_write_sz sz inp) w) as H2.
    change (falls_asleep (with_write_sz sz inp) w) with (falls_asleep inp w) in H2.
    destruct (falls_asleep inp w); split; intros H; congruence.
  - intros fb Hf Hcap. unfold completes_capture in Hcap.
    destruct (shutter_clicked inp) eqn:Hc; [|discriminate].
    rewrite Hf in Hcap. cbn [andb] in Hcap.
    destruct (loop_updates_stores (with_write_sz sz inp) fb w Hc Hf Hcap)
      as (_ & _ & ->).
    rewrite loop_imageCtr. unfold acquired. cbn [shutter_clicked fb_get with_write_sz].
    rewrite Hc, Hf. cbn [Z.eqb]. by rewrite lookup_insert_eq.
Qed.

Lemma X12_write_result_ignored_witness :
  let w := world_of (setup 0 bring_up_ok (power_on 7 ∅)) in
  let w1 := world_of (loop click_ok w) in
  let w2 := world_of (loop (with_write_sz 0 click_ok) w) in
  trace w2 = trace w1 /\ eeprom_flash w2 = eeprom_flash w1 /\
  sdcard w2 !! image_path (imageCtr w2) = Some (take (Z.to_nat 0) sample_frame).
Proof.
  intros w.
  destruct (X12_write_result_ignored click_ok 0 w) as (H1 & _ & H2 & _ & H3).
  split; [exact H1|]. split; [exact H2|]. exact (H3 sample_frame eq_refl eq_refl).
Defined.

(** ** A number lost to a failed capture *)

(** X13: a number used up by a capture whose file could not be created is
    skipped for the rest of the session but comes back after a reset.  With
    counter and EEPROM in agreement, the failed capture asks for
    /Image(C+1).jpg; the next capture in the same session asks for
    /Image(C+2).jpg (both modulo 2^16), while the next capture after a reset
    and a successful bring-up asks for /Image(C+1).jpg again. *)
Theorem X13_lost_number_returns_after_reset (inp1 inp2 : loop_input)
    (fb1 fb2 : frame) (w w2 : world) (fuel : nat) (sinp : setup_input) :
  shutter_clicked inp1 = true -> fb_get inp1 = Some fb1 -> open_ok inp1 = false ->
  shutter_clicked inp2 = true -> fb_get inp2 = Some fb2 ->
  imageCtr w = eeprom_flash w ->
  let w1 := world_of (loop inp1 w) in
  setup fuel sinp (reset w1) = Done w2 ->
  let p := image_path (uint16 (imageCtr w + 1)) in
  opened (trace w1) = opened (trace w) ++ [p] /\
  opened (trace (world_of (loop inp2 w1)))
  = opened (trace w1) ++ [image_path (uint16 (uint16 (imageCtr w + 1) + 1))] /\
  opened (trace (world_of (loop inp2 w2))) = opened (trace w2) ++ [p].
Proof.
  intros Hc1 Hf1 Ho1 Hc2 Hf2 Hagree w1 Hsetup p. subst w1 p.
  assert (Ha1 : (acquired inp1 =? 0) = false)
    by (unfold acquired; by rewrite Hc1, Hf1).
  assert (Ha2 : (acquired inp2 =? 0) = false)
    by (unfold acquired; by rewrite Hc2, Hf2).
  assert (Hcap : completes_capture inp1 = false)
    by (unfold completes_capture; by rewrite Hc1, Hf1, Ho1).
  apply setup_done_world in Hsetup.
  assert (Hctr2 : imageCtr w2 = imageCtr w).
  { subst w2. unfold reset, power_on. cbn [imageCtr eeprom_flash].
    destruct (loop_keeps_stores inp1 w Hcap) as (_ & -> & _). by rewrite Hagree. }
  rewrite !loop_trace, !opened_app, !opened_loop_events, Ha1, Ha2.
  rewrite Hctr2, loop_imageCtr, Ha1. repeat split.
Qed.

Lemma X13_lost_number_returns_after_reset_witness :
  let w := world_of (setup 0 bring_up_ok (power_on 7 ∅)) in
  let w1 := world_of (loop click_open_fails w) in
  let w2 := world_of (setup 0 bring_up_ok (reset w1)) in
  opened (trace w1) = opened (trace w) ++ [image_path (uint16 (imageCtr w + 1))] /\
  opened (trace (world_of (loop click_ok w2)))
  = opened (trace w2) ++ [image_path (uint16 (imageCtr w + 1))].
Proof.
  intros w w1 w2.
  destruct (X13_lost_number_returns_after_reset click_open_fails click_ok
              sample_frame sample_frame w w2 0 bring_up_ok
              eq_refl eq_refl eq_refl eq_refl eq_refl eq_refl eq_refl)
    as (H1 & _ & H2).
  split; [exact H1 | exact H2].
Defined.
